(** * The low-level-call detector (slither/detectors/low-level-call-detector.py)

    A shallow embedding of [LowLevelCallDetector] and the properties of its
    detection pass.  The development has five parts:

    - [PyStr]: the operations on Python [str] the detector uses
      (concatenation, [in], [str(None)]);
    - [Re]: the fragment of Python's [re] module the pattern is written in,
      with [match] and [search] decided by derivatives;
    - [Slither]: the program model the host hands to a detector
      (compilation unit, contracts, functions, nodes);
    - [LowLevelCallDetector]: the detector itself, [_detect] and
      [get_previous_node], in a small state-and-exception monad;
    - [Store]: the same two methods with every list held by reference in
      one store, where [results.append] is a write.

    Text is modelled as [string] (a sequence of 8-bit characters).  Every
    character the detector distinguishes is ASCII, so a text with other code
    points behaves as its UTF-8 encoding does. *)

From Stdlib Require Import List String Ascii Bool Arith Lia.
Import ListNotations.
Open Scope list_scope.
Open Scope string_scope.

Set Implicit Arguments.

(* ===================================================================== *)
(** * Python [str] *)
(* ===================================================================== *)

Module PyStr.

(** [needle in hay] on [str]: does [needle] occur in [hay] as a contiguous
    run of characters?  Tried at every position of [hay], left to right. *)
Fixpoint contains (needle hay : string) : bool :=
  prefix needle hay ||
  match hay with
  | EmptyString => false
  | String _ hay' => contains needle hay'
  end.

(** [str(x)] for an optional value whose own rendering is [s]: [None] is
    rendered as the four characters [None]. *)
Definition str (x : option string) : string :=
  match x with
  | Some s => s
  | None => "None"
  end.

(** [join] on the empty separator: the parts written one after the other. *)
Definition join (parts : list string) : string := String.concat "" parts.

End PyStr.

(* ===================================================================== *)
(** * Python [re]: the fragment used by the detector *)
(* ===================================================================== *)

Module Re.

(** The line feed, the one character Python's [.] refuses when the pattern
    is compiled without flags. *)
Definition newline : ascii := "010"%char.

(** Regular expressions: literal characters, [.], sequence, alternation and
    the greedy star.  [(r)?] is [Opt r]; a group only brackets. *)
Inductive regex : Type :=
| Void
| Eps
| Chr (c : ascii)
| Dot
| Seq (r1 r2 : regex)
| Alt (r1 r2 : regex)
| Star (r : regex).

Definition Opt (r : regex) : regex := Alt r Eps.

Fixpoint Lit (s : string) : regex :=
  match s with
  | EmptyString => Eps
  | String c s' => Seq (Chr c) (Lit s')
  end.

(** Does [.] accept the character? *)
Definition dot_accepts (c : ascii) : bool := negb (Ascii.eqb c newline).

(** Does the expression match the empty text? *)
Fixpoint nullable (r : regex) : bool :=
  match r with
  | Void => false
  | Eps => true
  | Chr _ => false
  | Dot => false
  | Seq r1 r2 => nullable r1 && nullable r2
  | Alt r1 r2 => nullable r1 || nullable r2
  | Star _ => true
  end.

(** What is left to match once the character [a] has been read. *)
Fixpoint deriv (a : ascii) (r : regex) : regex :=
  match r with
  | Void => Void
  | Eps => Void
  | Chr c => if Ascii.eqb a c then Eps else Void
  | Dot => if dot_accepts a then Eps else Void
  | Seq r1 r2 =>
      if nullable r1
      then Alt (Seq (deriv a r1) r2) (deriv a r2)
      else Seq (deriv a r1) r2
  | Alt r1 r2 => Alt (deriv a r1) (deriv a r2)
  | Star r1 => Seq (deriv a r1) (Star r1)
  end.

(** [pattern.fullmatch(s)] as a truth value. *)
Fixpoint fullmatch (r : regex) (s : string) : bool :=
  match s with
  | EmptyString => nullable r
  | String a s' => fullmatch (deriv a r) s'
  end.

(** [pattern.match(s)] as a truth value: some prefix of [s] matches. *)
Fixpoint match_ (r : regex) (s : string) : bool :=
  nullable r ||
  match s with
  | EmptyString => false
  | String a s' => match_ (deriv a r) s'
  end.

(** [pattern.search(s)] as a truth value: the match is tried at every
    position of [s], left to right, and the first success is returned.  A
    match object is always truthy, so only the existence of a match is
    observed by [if pattern.search(s):]. *)
Fixpoint search (r : regex) (s : string) : bool :=
  match_ r s ||
  match s with
  | EmptyString => false
  | String _ s' => search r s'
  end.

(** The texts an expression matches in full. *)
Inductive Matches : regex -> string -> Prop :=
| MEps : Matches Eps ""
| MChr c : Matches (Chr c) (String c "")
| MDot c : dot_accepts c = true -> Matches Dot (String c "")
| MSeq r1 r2 s1 s2 :
    Matches r1 s1 -> Matches r2 s2 -> Matches (Seq r1 r2) (s1 ++ s2)
| MAltL r1 r2 s : Matches r1 s -> Matches (Alt r1 r2) s
| MAltR r1 r2 s : Matches r2 s -> Matches (Alt r1 r2) s
| MStarNil r : Matches (Star r) ""
| MStarApp r s1 s2 :
    Matches r s1 -> Matches (Star r) s2 -> Matches (Star r) (s1 ++ s2).

Create HintDb re.
#[export] Hint Constructors Matches : re.

(** A text of characters [.] accepts throughout: no line feed in it. *)
Fixpoint single_line (s : string) : bool :=
  match s with
  | EmptyString => true
  | String c s' => dot_accepts c && single_line s'
  end.

End Re.

(* ===================================================================== *)
(** * The program model supplied by the host *)
(* ===================================================================== *)

Module Slither.

(** [slither.core.cfg.node.NodeType].  The detector tests a node's kind
    against [EXPRESSION] only; the other kinds are interchangeable for it. *)
Inductive NodeType : Type :=
| ENTRYPOINT | EXPRESSION | RETURN | IF_ | VARIABLE | ASSEMBLY | IFLOOP
| THROW | BREAK | CONTINUE | PLACEHOLDER | TRY | CATCH
| STARTUNCHECKED | ENDUNCHECKED | ENDIF | STARTLOOP | ENDLOOP
| OTHER_ENTRYPOINT.

Definition NodeType_eq_dec (a b : NodeType) : {a = b} + {a <> b}.
Proof. decide equality. Defined.

(** [a == b] on two members of the enumeration. *)
Definition NodeType_eqb (a b : NodeType) : bool :=
  if NodeType_eq_dec a b then true else false.

(** [node.source_mapping]: gives back the source text the node spans. *)
Record Source : Type := { get_source_code : string }.

(** A node of a function's control-flow graph, as the detector reads it.
    [node_id] tells the objects of one function apart: it stands for the
    identity of the Python object.  [expression] holds the [str()] rendering
    of the node's expression, or [None] where the node has none. *)
Record Node : Type := {
  node_id : nat;
  type : NodeType;
  expression : option string;
  source_mapping : Source
}.

Record Function : Type := {
  name : string;
  nodes : list Node
}.

(** A contract with all its functions, and those it declares itself. *)
Record Contract : Type := {
  contract_name : string;
  functions : list Function;
  functions_declared : list Function
}.

(** The compilation unit with all its contracts, and the derived ones. *)
Record SlitherCompilationUnit : Type := {
  contracts : list Contract;
  contracts_derived : list Contract
}.

(** What [AbstractDetector.generate_result(info)] builds: the detector
    passes a list of one text. *)
Record Output : Type := { info : list string }.

(** The fields of [AbstractDetector] the detector reads. *)
Record AbstractDetector : Type := {
  compilation_unit : SlitherCompilationUnit
}.

Definition generate_result (info : list string) : Output :=
  {| info := info |}.

(** The text a reporter prints for a result. *)
Definition description (o : Output) : string := PyStr.join (info o).

(** The [__eq__] of a class.  The class of nodes belongs to the host. *)
Class DunderEq (A : Type) : Type := dunder_eq : A -> A -> bool.

(** [object.__eq__]: two distinct objects are not equal. *)
Definition object_eq : DunderEq Node := fun _ _ => false.

(** [item == value] as the list methods evaluate it: the same object is
    equal to itself, and [__eq__] is asked only for two distinct objects. *)
Definition py_eq `{DunderEq Node} (item value : Node) : bool :=
  Nat.eqb (node_id item) (node_id value) || dunder_eq item value.

End Slither.

(* ===================================================================== *)
(** * The detector *)
(* ===================================================================== *)

Module LowLevelCallDetector.
Import PyStr Re Slither.

(** ** Exceptions and state *)

Inductive exception : Type :=
| ValueError (msg : string)
| IndexError (msg : string).

Inductive outcome (A : Type) : Type :=
| Returns (a : A)
| Raises (e : exception).
Arguments Raises {A} e.

(** A method of the detector: it runs on the detector object and either
    returns a value and the object as it left it, or raises. *)
Definition M (A : Type) : Type :=
  AbstractDetector -> outcome (A * AbstractDetector).

Definition ret {A} (a : A) : M A := fun self => Returns (a, self).

Definition raise {A} (e : exception) : M A := fun _ => Raises e.

Definition bind {A B} (m : M A) (k : A -> M B) : M B :=
  fun self =>
    match m self with
    | Returns (a, self') => k a self'
    | Raises e => Raises e
    end.

(** Reading an attribute of [self]. *)
Definition self_ {A} (attr : AbstractDetector -> A) : M A :=
  fun self => Returns (attr self, self).

Declare Scope detector_scope.
Delimit Scope detector_scope with det.
Notation "x <- m ;; k" := (bind m (fun x => k))
  (at level 61, m at next level, right associativity) : detector_scope.
Open Scope detector_scope.

(** [for x in xs: body], where the body updates the local [r]. *)
Fixpoint for_ {A R} (xs : list A) (body : A -> R -> M R) (r : R) : M R :=
  match xs with
  | [] => ret r
  | x :: xs' => r' <- body x r ;; for_ xs' body r'
  end.

(** ** Lists *)

Section ListMethods.
Context `{DunderEq Node}.

(** [nodes.index(node)]: the position of the first item equal to [node]. *)
Fixpoint index_from (i : nat) (nodes : list Node) (node : Node) : option nat :=
  match nodes with
  | [] => None
  | item :: rest =>
      if py_eq item node then Some i else index_from (S i) rest node
  end.

Definition index (nodes : list Node) (node : Node) : M nat :=
  match index_from 0 nodes node with
  | Some i => ret i
  | None => raise (ValueError "list.index(x): x not in list")
  end.

(** [nodes[i]] for [i >= 0]. *)
Definition getitem (nodes : list Node) (i : nat) : M Node :=
  match nth_error nodes i with
  | Some node => ret node
  | None => raise (IndexError "list index out of range")
  end.

End ListMethods.

(** ** The class *)

(** [re.compile(r'\.call(\{.*\})?\(.*\)')] *)
Definition low_level_call_pattern : regex :=
  Seq (Lit ".call")
      (Seq (Opt (Seq (Chr "{") (Seq (Star Dot) (Chr "}"))))
           (Seq (Chr "(") (Seq (Star Dot) (Chr ")")))).

Definition allowed_comment : string :=
  "[slither: low-level call explicitly allowed]".

(** The text of a result: the f-string of [_detect]. *)
Definition message (function_name expression_str : string) : string :=
  "Function " ++ function_name ++ " contains a low-level call: "
  ++ expression_str ++ " without explicit comment allowance".

Section Methods.
Context `{DunderEq Node}.

Definition get_previous_node (function : Function) (node : Node)
  : M (option Node) :=
  let nodes := nodes function in
  node_index <- index nodes node ;;
  if (0 <? node_index)%nat then
    previous <- getitem nodes (node_index - 1) ;;
    ret (Some previous)
  else
    ret None.

(** The body of the innermost loop of [_detect], on one node.  A node
    object is truthy, so [not previous_node] holds for [None] alone, and
    [or] evaluates its right operand only for a node. *)
Definition detect_node (function : Function) (node : Node)
    (results : list Output) : M (list Output) :=
  if NodeType_eqb (type node) EXPRESSION then
    let expression_str := str (expression node) in
    if search low_level_call_pattern expression_str then
      previous_node <- get_previous_node function node ;;
      if match previous_node with
         | None => true
         | Some previous =>
             negb (contains allowed_comment
                     (get_source_code (source_mapping previous)))
         end
      then
        ret (results ++
               [generate_result [message (name function) expression_str]])%list
      else ret results
    else ret results
  else ret results.

Definition _detect : M (list Output) :=
  let results := [] in
  derived <- self_ (fun self => contracts_derived (compilation_unit self)) ;;
  for_ derived (fun contract results =>
    for_ (functions_declared contract) (fun function results =>
      for_ (nodes function) (fun node results =>
        detect_node function node results) results) results) results.

End Methods.

End LowLevelCallDetector.

(* ===================================================================== *)
(** * What a pass reports, as a function of the model *)
(* ===================================================================== *)

(** Closed forms of the loops of [_detect], used to state its properties.
    [DetectorFacts.detect_spec] proves that the method computes them. *)

Module Findings.
Import PyStr Re Slither LowLevelCallDetector.

Section Findings.
Context `{DunderEq Node}.

(** The node standing just before the first item of [nodes] that is equal
    to [node]; [previous] is the node standing before [nodes] itself.
    [None] when no item is equal to [node]. *)
Fixpoint before_first_equal (previous : option Node) (nodes : list Node)
    (node : Node) : option (option Node) :=
  match nodes with
  | [] => None
  | item :: rest =>
      if py_eq item node then Some previous
      else before_first_equal (Some item) rest node
  end.

(** No item of the list is equal to [node]. *)
Definition absent (nodes : list Node) (node : Node) : Prop :=
  forall item, In item nodes -> py_eq item node = false.

(** The last item of a list, if it has one. *)
Fixpoint last_item (nodes : list Node) : option Node :=
  match nodes with
  | [] => None
  | [item] => Some item
  | _ :: rest => last_item rest
  end.

(** An expression statement whose rendering the pattern matches. *)
Definition flagged (node : Node) : bool :=
  NodeType_eqb (type node) EXPRESSION &&
  search low_level_call_pattern (str (expression node)).

Definition has_marker (node : Node) : bool :=
  contains allowed_comment (get_source_code (source_mapping node)).

(** The node [get_previous_node] finds carries the marker. *)
Definition suppressed (function : Function) (node : Node) : bool :=
  match before_first_equal None (nodes function) node with
  | Some (Some previous) => has_marker previous
  | _ => false
  end.

Definition finding (function : Function) (node : Node) : Output :=
  generate_result [message (name function) (str (expression node))].

Definition reported (visit : Function * Node) : bool :=
  flagged (snd visit) && negb (suppressed (fst visit) (snd visit)).

(** What visiting one node adds to the results. *)
Definition report (function : Function) (node : Node) : list Output :=
  if reported (function, node) then [finding function node] else [].

Definition function_findings (function : Function) : list Output :=
  flat_map (report function) (nodes function).

Definition contract_findings (contract : Contract) : list Output :=
  flat_map function_findings (functions_declared contract).

Definition findings (unit : SlitherCompilationUnit) : list Output :=
  flat_map contract_findings (contracts_derived unit).

(** The (function, node) pairs in the order the loops visit them. *)
Definition visits (unit : SlitherCompilationUnit) : list (Function * Node) :=
  flat_map (fun contract =>
    flat_map (fun function => map (pair function) (nodes function))
             (functions_declared contract))
    (contracts_derived unit).

End Findings.

(** The shape of a low-level call as the specification words it: [.call],
    optionally [{...}], then [(...)], the dots standing for any characters
    at all. *)
Definition call_shape_any (s : string) : Prop :=
  exists before args after,
    s = before ++ ".call(" ++ args ++ ")" ++ after \/
    exists opts,
      s = before ++ ".call{" ++ opts ++ "}(" ++ args ++ ")" ++ after.

(** The same shape with the dots standing for characters of one line. *)
Definition call_shape (s : string) : Prop :=
  exists before args after,
    single_line args = true /\
    (s = before ++ ".call(" ++ args ++ ")" ++ after \/
     exists opts,
       single_line opts = true /\
       s = before ++ ".call{" ++ opts ++ "}(" ++ args ++ ")" ++ after).

(** A detector over a compilation unit with the given derived contracts. *)
Definition detector_of (derived : list Contract) : AbstractDetector :=
  {| compilation_unit :=
       {| contracts := derived; contracts_derived := derived |} |}.

(** The same model with another list of all contracts. *)
Definition with_contracts (all : list Contract) (self : AbstractDetector)
  : AbstractDetector :=
  {| compilation_unit :=
       {| contracts := all;
          contracts_derived := contracts_derived (compilation_unit self) |} |}.

(** The same model with another list of all functions in every derived
    contract. *)
Definition with_functions (all : Contract -> list Function)
    (self : AbstractDetector) : AbstractDetector :=
  {| compilation_unit :=
       {| contracts := contracts (compilation_unit self);
          contracts_derived :=
            map (fun contract =>
                   {| contract_name := contract_name contract;
                      functions := all contract;
                      functions_declared := functions_declared contract |})
                (contracts_derived (compilation_unit self)) |} |}.

End Findings.

(* ===================================================================== *)
(** * Sample inputs *)
(* ===================================================================== *)

Module Samples.
Import PyStr Re Slither LowLevelCallDetector Findings.

(** The double quote. *)
Definition quote : string := String "034"%char EmptyString.

(** [target.call{value: v, gas: g}(..)] with the empty string literal,
    two double quotes, as its argument. *)
Definition call_with_options : string :=
  "target.call{value: v, gas: g}(" ++ quote ++ quote ++ ")".

(** A call whose argument list is broken over two lines. *)
Definition call_over_two_lines : string :=
  ".call(" ++ String newline ")".

Definition node (id : nat) (kind : NodeType) (expr : option string)
    (source : string) : Node :=
  {| node_id := id; type := kind; expression := expr;
     source_mapping := {| get_source_code := source |} |}.

Definition contract_of (function : Function) : Contract :=
  {| contract_name := "C"; functions := [function];
     functions_declared := [function] |}.

Definition annotation : Node :=
  node 1 EXPRESSION (Some "x = 1")
       "x = 1; // [slither: low-level call explicitly allowed]".

Definition raw_call : Node :=
  node 2 EXPRESSION (Some "addr.call(data)") "addr.call(data);".

Definition plain : Node :=
  node 3 EXPRESSION (Some "y = 2") "y = 2;".

Definition entry : Node := node 0 ENTRYPOINT None "".

(** An expression statement without an expression. *)
Definition hollow : Node := node 4 EXPRESSION None "".

(** Near misses of the marker. *)
Definition round_brackets : Node :=
  node 5 EXPRESSION (Some "x = 1")
       "// (slither: low-level call explicitly allowed)".
Definition other_case : Node :=
  node 6 EXPRESSION (Some "x = 1")
       "// [Slither: Low-Level Call Explicitly Allowed]".
Definition other_words : Node :=
  node 7 EXPRESSION (Some "x = 1")
       "// [slither: low level call allowed]".

(** One node object listed twice, the second time after an unmarked node. *)
Definition twice : Function :=
  {| name := "twice"; nodes := [annotation; raw_call; plain; raw_call] |}.

(** One node object listed first and again after the marker. *)
Definition first_and_again : Function :=
  {| name := "again"; nodes := [raw_call; annotation; raw_call] |}.

Definition unmarked : Function :=
  {| name := "f"; nodes := [plain; raw_call] |}.

Definition marked : Function :=
  {| name := "g"; nodes := [annotation; raw_call] |}.

Definition alone : Function :=
  {| name := "h"; nodes := [raw_call] |}.

Definition with_hollow : Function :=
  {| name := "k"; nodes := [hollow; raw_call] |}.

End Samples.

(* ===================================================================== *)
(** * The rule by position *)
(* ===================================================================== *)

(** The rule with the predecessor taken by position in the node sequence,
    to compare with what [_detect] computes through [get_previous_node]. *)

Module Positional.
Import PyStr Re Slither LowLevelCallDetector Findings.

Section Positional.
Context `{DunderEq Node}.

(** No node of the list is equal to a node listed after it. *)
Fixpoint distinct (nodes : list Node) : bool :=
  match nodes with
  | [] => true
  | item :: rest =>
      forallb (fun later => negb (py_eq item later)) rest && distinct rest
  end.

(** What a node adds when [previous] is the node standing before it. *)
Definition positional_report (function : Function) (previous : option Node)
    (node : Node) : list Output :=
  if flagged node &&
     negb match previous with
          | Some before => has_marker before
          | None => false
          end
  then [finding function node] else [].

(** The findings of a run of nodes, each checked against the node standing
    before it; [previous] stands before the run. *)
Fixpoint positional_findings (function : Function) (previous : option Node)
    (nodes : list Node) : list Output :=
  match nodes with
  | [] => []
  | node :: rest =>
      (positional_report function previous node
       ++ positional_findings function (Some node) rest)%list
  end.

End Positional.

(** The function [alone] with one more statement after the call. *)
Definition alone_then_plain : Function :=
  {| name := "h"; nodes := [Samples.raw_call; Samples.plain] |}.

End Positional.

(* ===================================================================== *)
(** * Nodes with and without an expression *)
(* ===================================================================== *)

Module Rendering.
Import Slither.

(** [node.expression is not None] *)
Definition has_expression (node : Node) : bool :=
  match expression node with
  | Some _ => true
  | None => false
  end.

End Rendering.

(* ===================================================================== *)
(** * The detector on a store of list objects *)
(* ===================================================================== *)

(** The detector assigns no attribute and calls one method that changes an
    object, [list.append].  What a pass can change is therefore the content
    of a list object, and every list the detector touches is held here in
    one store and reached by reference: the lists of the program model and
    the list [results] alike.  The other objects are values. *)

Module Store.
Import PyStr Re Slither LowLevelCallDetector.

(** A reference to a list object: its place in the store. *)
Definition ref : Type := nat.

(** The attributes the detector reads, a list being held by reference. *)
Record FunctionObject : Type := {
  function_name : string;
  function_nodes : ref
}.

Record ContractObject : Type := {
  contract_label : string;
  contract_functions_declared : ref
}.

Record UnitObject : Type := { unit_contracts_derived : ref }.

Record DetectorObject : Type := { detector_compilation_unit : UnitObject }.

(** What a list may hold. *)
Inductive object : Type :=
| OContract (contract : ContractObject)
| OFunction (function : FunctionObject)
| ONode (node : Node)
| OOutput (output : Output).

Definition store : Type := list (list object).

Inductive failure : Type :=
| Exception (e : exception)
| AttributeError (attribute : string)
| NoSuchObject (a : ref)
| OutOfFuel.

Inductive result (A : Type) : Type :=
| Done (a : A) (s : store)
| Failed (f : failure).
Arguments Failed {A} f.

(** A computation on the store. *)
Definition H (A : Type) : Type := store -> result A.

Definition ret {A} (a : A) : H A := fun s => Done a s.

Definition fail {A} (f : failure) : H A := fun _ => Failed f.

Definition bind {A B} (m : H A) (k : A -> H B) : H B :=
  fun s =>
    match m s with
    | Done a s' => k a s'
    | Failed f => Failed f
    end.

Declare Scope store_scope.
Delimit Scope store_scope with store.
Notation "x <- m ;; k" := (bind m (fun x => k))
  (at level 61, m at next level, right associativity) : store_scope.
Local Open Scope store_scope.

(** [[]]: a new list object, at a place no reference held before. *)
Definition new_list : H ref :=
  fun s => Done (List.length s) (s ++ [[]])%list.

(** The content of a list object. *)
Definition load (a : ref) : H (list object) :=
  fun s =>
    match nth_error s a with
    | Some items => Done items s
    | None => Failed (NoSuchObject a)
    end.

(** The store with the list at [a] replaced by [items]. *)
Fixpoint write (a : ref) (items : list object) (s : store) : store :=
  match s, a with
  | [], _ => []
  | _ :: rest, 0 => items :: rest
  | other :: rest, S a' => other :: write a' items rest
  end.

(** [a.append(x)]: the list object at [a] grows by [x], in place. *)
Definition append (a : ref) (x : object) : H unit :=
  fun s =>
    match nth_error s a with
    | Some items => Done tt (write a (items ++ [x])%list s)
    | None => Failed (NoSuchObject a)
    end.

(** [for x in a: body]: the iterator keeps a position and reads the list
    object anew at every step, so it sees what the body appends. *)
Fixpoint for_each (fuel : nat) (a : ref) (position : nat)
    (body : object -> H unit) : H unit :=
  match fuel with
  | 0 => fail OutOfFuel
  | S fuel' =>
      items <- load a ;;
      match nth_error items position with
      | None => ret tt
      | Some x =>
          _ <- body x ;;
          for_each fuel' a (S position) body
      end
  end.

(** Reading an attribute of an object of the class that has it. *)
Definition as_contract (x : object) : H ContractObject :=
  match x with
  | OContract contract => ret contract
  | _ => fail (AttributeError "functions_declared")
  end.

Definition as_function (x : object) : H FunctionObject :=
  match x with
  | OFunction function => ret function
  | _ => fail (AttributeError "nodes")
  end.

Definition as_node (x : object) : H Node :=
  match x with
  | ONode node => ret node
  | _ => fail (AttributeError "type")
  end.

Section Methods.
Context `{DunderEq Node}.

(** [item == node] for an item of any class: only a node is equal to a
    node. *)
Definition equal_to (node : Node) (item : object) : bool :=
  match item with
  | ONode other => py_eq other node
  | _ => false
  end.

Fixpoint index_from (i : nat) (items : list object) (node : Node)
  : option nat :=
  match items with
  | [] => None
  | item :: rest =>
      if equal_to node item then Some i else index_from (S i) rest node
  end.

(** [nodes.index(node)] *)
Definition index (nodes : ref) (node : Node) : H nat :=
  items <- load nodes ;;
  match index_from 0 items node with
  | Some i => ret i
  | None => fail (Exception (ValueError "list.index(x): x not in list"))
  end.

(** [nodes[i]] for [i >= 0]. *)
Definition getitem (nodes : ref) (i : nat) : H object :=
  items <- load nodes ;;
  match nth_error items i with
  | Some x => ret x
  | None => fail (Exception (IndexError "list index out of range"))
  end.

Definition get_previous_node (function : FunctionObject) (node : Node)
  : H (option object) :=
  let nodes := function_nodes function in
  node_index <- index nodes node ;;
  if (0 <? node_index)%nat then
    previous <- getitem nodes (node_index - 1) ;;
    ret (Some previous)
  else
    ret None.

(** The body of the innermost loop, on one item of [function.nodes]. *)
Definition detect_node (results : ref) (function : FunctionObject)
    (item : object) : H unit :=
  node <- as_node item ;;
  if NodeType_eqb (type node) EXPRESSION then
    let expression_str := str (expression node) in
    if search low_level_call_pattern expression_str then
      previous_node <- get_previous_node function node ;;
      unmarked <-
        match previous_node with
        | None => ret true
        | Some previous =>
            before <- as_node previous ;;
            ret (negb (contains allowed_comment
                         (get_source_code (source_mapping before))))
        end ;;
      if unmarked then
        append results
          (OOutput (generate_result
                      [message (function_name function) expression_str]))
      else ret tt
    else ret tt
  else ret tt.

(** [_detect]: returns the reference to [results]. *)
Definition _detect (fuel : nat) (self : DetectorObject) : H ref :=
  results <- new_list ;;
  _ <- for_each fuel
         (unit_contracts_derived (detector_compilation_unit self)) 0
         (fun item =>
            contract <- as_contract item ;;
            for_each fuel (contract_functions_declared contract) 0
              (fun item =>
                 function <- as_function item ;;
                 for_each fuel (function_nodes function) 0
                   (detect_node results function))) ;;
  ret results.

(** Two passes, one after the other, and the two lists they returned read
    at the end. *)
Definition two_passes (fuel : nat) (self : DetectorObject)
  : H (list object * list object) :=
  first <- _detect fuel self ;;
  second <- _detect fuel self ;;
  first_findings <- load first ;;
  second_findings <- load second ;;
  ret (first_findings, second_findings).

End Methods.

(** ** The model a store holds *)

Fixpoint traverse {A B} (f : A -> option B) (l : list A) : option (list B) :=
  match l with
  | [] => Some []
  | x :: rest =>
      match f x, traverse f rest with
      | Some y, Some ys => Some (y :: ys)
      | _, _ => None
      end
  end.

Definition node_of (x : object) : option Node :=
  match x with
  | ONode node => Some node
  | _ => None
  end.

Definition function_at (s : store) (x : object) : option Function :=
  match x with
  | OFunction function =>
      match nth_error s (function_nodes function) with
      | Some items =>
          option_map
            (fun nodes => {| name := function_name function;
                             nodes := nodes |})
            (traverse node_of items)
      | None => None
      end
  | _ => None
  end.

(** The detector reads the declared functions of a contract only: the
    contract read back lists them for both of its fields. *)
Definition contract_at (s : store) (x : object) : option Contract :=
  match x with
  | OContract contract =>
      match nth_error s (contract_functions_declared contract) with
      | Some items =>
          option_map
            (fun declared => {| contract_name := contract_label contract;
                                functions := declared;
                                functions_declared := declared |})
            (traverse (function_at s) items)
      | None => None
      end
  | _ => None
  end.

Definition model_at (s : store) (self : DetectorObject)
  : option AbstractDetector :=
  match nth_error s (unit_contracts_derived
                       (detector_compilation_unit self)) with
  | Some items =>
      option_map
        (fun derived =>
           {| compilation_unit :=
                {| contracts := derived; contracts_derived := derived |} |})
        (traverse (contract_at s) items)
  | None => None
  end.

(** A store holding the function [marked] of the samples in a contract:
    the list of contracts, the list of its functions, the list of nodes. *)
Definition sample_store : store :=
  [ [OContract {| contract_label := "C";
                  contract_functions_declared := 1 |}];
    [OFunction {| function_name := "g"; function_nodes := 2 |}];
    [ONode (Build_Node 1 EXPRESSION (Some "x = 1")
              {| get_source_code :=
                   "x = 1; // [slither: low-level call explicitly allowed]" |});
     ONode (Build_Node 2 EXPRESSION (Some "addr.call(data)")
              {| get_source_code := "addr.call(data);" |});
     ONode (Build_Node 3 EXPRESSION (Some "y.call(data)")
              {| get_source_code := "y.call(data);" |})] ].

Definition sample_detector : DetectorObject :=
  {| detector_compilation_unit := {| unit_contracts_derived := 0 |} |}.

End Store.

(* ===================================================================== *)
(** * Facts about Python [str] *)
(* ===================================================================== *)

Module PyStrFacts.
Import PyStr.

Lemma app_nil_r (s : string) : s ++ "" = s.
Proof. induction s as [|c s IH]; simpl; [reflexivity | now rewrite IH]. Qed.

Lemma app_assoc (s t u : string) : s ++ (t ++ u) = (s ++ t) ++ u.
Proof. induction s as [|c s IH]; simpl; [reflexivity | now rewrite IH]. Qed.

Lemma prefix_app (p s : string) : prefix p (p ++ s) = true.
Proof.
  induction p as [|c p IH]; simpl.
  - now destruct s.
  - destruct (ascii_dec c c) as [_|neq]; [exact IH | now elim neq].
Qed.

Lemma prefix_inv (p s : string) :
  prefix p s = true -> exists t, s = p ++ t.
Proof.
  revert s; induction p as [|c p IH]; intros s H.
  - now exists s.
  - destruct s as [|d s]; simpl in H; [discriminate|].
    destruct (ascii_dec c d) as [->|_]; [|discriminate].
    destruct (IH _ H) as [t ->]. now exists t.
Qed.

(** [contains] is substring containment, character for character. *)
Lemma contains_spec (needle hay : string) :
  contains needle hay = true <->
  exists before after, hay = before ++ needle ++ after.
Proof.
  split.
  - induction hay as [|c hay IH]; cbn [contains]; rewrite orb_true_iff;
      intros [H|H]; try discriminate.
    + apply prefix_inv in H as [t Ht]. now exists "", t.
    + apply prefix_inv in H as [t Ht]. now exists "", t.
    + destruct (IH H) as (b & a & ->). now exists (String c b), a.
  - intros (before & after & ->).
    induction before as [|c b IH].
    + cbn [append].
      destruct (needle ++ after) eqn:E; cbn [contains]; rewrite <- E;
        now rewrite prefix_app.
    + cbn [append contains]. rewrite IH. apply orb_true_r.
Qed.

End PyStrFacts.

(* ===================================================================== *)
(** * Facts about the regular expressions *)
(* ===================================================================== *)

Module ReFacts.
Import PyStr PyStrFacts Re.

Lemma app_eq_nil (s t : string) : s ++ t = EmptyString -> s = "" /\ t = "".
Proof. destruct s; simpl; [auto | discriminate]. Qed.

(** Inversion of [Matches], one lemma per shape of expression. *)

Lemma Matches_Eps s : Matches Eps s <-> s = "".
Proof. split; [inversion 1; reflexivity | intros ->; constructor]. Qed.

Lemma Matches_Chr c s : Matches (Chr c) s <-> s = String c "".
Proof. split; [inversion 1; reflexivity | intros ->; constructor]. Qed.

Lemma Matches_Dot s :
  Matches Dot s <-> exists c, dot_accepts c = true /\ s = String c "".
Proof.
  split.
  - inversion 1; subst. eauto.
  - intros (c & Hc & ->). now constructor.
Qed.

Lemma Matches_Seq r1 r2 s :
  Matches (Seq r1 r2) s <->
  exists s1 s2, s = s1 ++ s2 /\ Matches r1 s1 /\ Matches r2 s2.
Proof.
  split.
  - inversion 1; subst. eauto.
  - intros (s1 & s2 & -> & H1 & H2). now constructor.
Qed.

Lemma Matches_Alt r1 r2 s :
  Matches (Alt r1 r2) s <-> Matches r1 s \/ Matches r2 s.
Proof.
  split.
  - inversion 1; subst; auto.
  - intros [H|H]; auto with re.
Qed.

Lemma Matches_Opt r s : Matches (Opt r) s <-> Matches r s \/ s = "".
Proof. unfold Opt. now rewrite Matches_Alt, Matches_Eps. Qed.

Lemma Matches_Lit l s : Matches (Lit l) s <-> s = l.
Proof.
  revert s; induction l as [|c l IH]; intros s; simpl.
  - apply Matches_Eps.
  - rewrite Matches_Seq. split.
    + intros (s1 & s2 & -> & H1 & H2).
      apply Matches_Chr in H1 as ->. apply IH in H2 as ->. reflexivity.
    + intros ->. exists (String c ""), l. rewrite Matches_Chr, IH. auto.
Qed.

(** [.*] matches exactly the texts without a line feed. *)
Lemma Matches_Star_Dot s : Matches (Star Dot) s <-> single_line s = true.
Proof.
  split.
  - intros H. remember (Star Dot) as r eqn:Er.
    induction H; try discriminate; injection Er as ->.
    + reflexivity.
    + apply Matches_Dot in H as (c & Hc & ->). simpl.
      rewrite Hc. now apply IHMatches2.
  - induction s as [|c s IH]; simpl; intros Hs.
    + constructor.
    + apply andb_true_iff in Hs as [Hc Hs].
      apply (MStarApp (r := Dot) (s1 := String c "")); auto with re.
Qed.

(** [nullable] decides whether the empty text is matched. *)
Lemma nullable_spec r : nullable r = true <-> Matches r "".
Proof.
  split.
  - induction r; simpl; intros Hn; try discriminate.
    + constructor.
    + apply andb_true_iff in Hn as [H1 H2].
      apply (MSeq (s1 := "") (s2 := "")); auto.
    + apply orb_true_iff in Hn as [Hn|Hn]; auto with re.
    + constructor.
  - intros Hm. remember EmptyString as s eqn:Es.
    induction Hm; simpl; try discriminate; auto.
    + apply app_eq_nil in Es as [-> ->]. now rewrite IHHm1, IHHm2.
    + now rewrite IHHm.
    + rewrite IHHm; auto using orb_true_r.
Qed.

(** Reading one character: [deriv a r] matches what [r] matches after [a]. *)
Lemma deriv_sound a r : forall s,
  Matches (deriv a r) s -> Matches r (String a s).
Proof.
  induction r as [| |c| |r1 IH1 r2 IH2|r1 IH1 r2 IH2|r IH];
    simpl; intros s Hm.
  - inversion Hm.
  - inversion Hm.
  - destruct (Ascii.eqb a c) eqn:E; [|inversion Hm].
    apply Ascii.eqb_eq in E as ->. apply Matches_Eps in Hm as ->. constructor.
  - destruct (dot_accepts a) eqn:E; [|inversion Hm].
    apply Matches_Eps in Hm as ->. now constructor.
  - assert (Hseq : Matches (Seq (deriv a r1) r2) s ->
                   Matches (Seq r1 r2) (String a s)).
    { intros Hs. apply Matches_Seq in Hs as (s1 & s2 & -> & H1 & H2).
      apply (MSeq (s1 := String a s1) (s2 := s2)); auto. }
    destruct (nullable r1) eqn:En; [|auto].
    apply Matches_Alt in Hm as [Hm|Hm]; [auto|].
    apply (MSeq (s1 := "") (s2 := String a s)); auto.
    now apply nullable_spec.
  - apply Matches_Alt in Hm as [Hm|Hm]; auto with re.
  - apply Matches_Seq in Hm as (s1 & s2 & -> & H1 & H2).
    apply (MStarApp (s1 := String a s1) (s2 := s2)); auto.
Qed.

Lemma deriv_complete a r t : forall s,
  Matches r t -> t = String a s -> Matches (deriv a r) s.
Proof.
  intros s Hm; revert s.
  induction Hm as [|c|c Hc|r1 r2 s1 s2 H1 IH1 H2 IH2|r1 r2 t H IH
                  |r1 r2 t H IH| r |r s1 s2 H1 IH1 H2 IH2];
    intros s Es; simpl; try discriminate.
  - injection Es as -> <-. rewrite Ascii.eqb_refl. constructor.
  - injection Es as -> <-. rewrite Hc. constructor.
  - destruct s1 as [|b s1]; simpl in Es.
    + apply nullable_spec in H1. rewrite H1. apply MAltR. auto.
    + injection Es as -> <-.
      assert (Matches (Seq (deriv a r1) r2) (s1 ++ s2)) by auto with re.
      destruct (nullable r1); auto with re.
  - apply MAltL; auto.
  - apply MAltR; auto.
  - destruct s1 as [|b s1]; simpl in Es.
    + apply IH2 in Es. exact Es.
    + injection Es as -> <-. auto with re.
Qed.

Lemma deriv_spec a r s : Matches (deriv a r) s <-> Matches r (String a s).
Proof.
  split; [apply deriv_sound | intros Hm; now apply (deriv_complete Hm)].
Qed.

Lemma fullmatch_spec r s : fullmatch r s = true <-> Matches r s.
Proof.
  revert r; induction s as [|a s IH]; intros r; simpl.
  - apply nullable_spec.
  - now rewrite IH, deriv_spec.
Qed.

(** [match_] succeeds exactly when a prefix of the text is matched. *)
Lemma match_spec r s :
  match_ r s = true <-> exists m rest, s = m ++ rest /\ Matches r m.
Proof.
  revert r; induction s as [|a s IH]; intros r; cbn [match_];
    rewrite orb_true_iff, nullable_spec.
  - split.
    + intros [Hn|Hf]; [|discriminate]. now exists "", "".
    + intros (m & rest & E & Hm). symmetry in E.
      apply app_eq_nil in E as [-> _]. auto.
  - rewrite IH. split.
    + intros [Hn|(m & rest & -> & Hm)].
      * now exists "", (String a s).
      * exists (String a m), rest. split; [reflexivity|].
        now apply deriv_spec.
    + intros (m & rest & E & Hm). destruct m as [|b m]; [auto|].
      simpl in E. injection E as <- ->. right.
      exists m, rest. split; [reflexivity|]. now apply deriv_spec.
Qed.

(** [search] succeeds exactly when some run of the text is matched. *)
Lemma search_spec r s :
  search r s = true <->
  exists before m after, s = before ++ m ++ after /\ Matches r m.
Proof.
  induction s as [|a s IH]; cbn [search]; rewrite orb_true_iff, match_spec.
  - split.
    + intros [(m & rest & E & Hm)|Hf]; [|discriminate].
      now exists "", m, rest.
    + intros (before & m & after & E & Hm). left.
      symmetry in E. apply app_eq_nil in E as [-> E].
      now exists m, after.
  - rewrite IH. split.
    + intros [(m & rest & E & Hm)|(before & m & after & -> & Hm)].
      * now exists "", m, rest.
      * now exists (String a before), m, after.
    + intros (before & m & after & E & Hm).
      destruct before as [|b before]; simpl in E.
      * left. now exists m, after.
      * injection E as <- ->. right. now exists before, m, after.
Qed.

End ReFacts.

(* ===================================================================== *)
(** * Facts about the detector *)
(* ===================================================================== *)

Module DetectorFacts.
Import PyStr PyStrFacts Re ReFacts Slither LowLevelCallDetector Findings.

(** ** Loops *)

(** A loop whose body appends [g x] to the results and leaves the detector
    as it is appends all of them, in the order of the list. *)
Lemma for_appends {A R} (g : A -> list R) (body : A -> list R -> M (list R)) :
  forall xs,
    (forall x, In x xs ->
       forall r self, body x r self = Returns ((r ++ g x)%list, self)) ->
    forall r self,
      for_ xs body r self = Returns ((r ++ flat_map g xs)%list, self).
Proof.
  induction xs as [|x xs IH]; intros Hbody r self; simpl.
  - unfold ret. now rewrite List.app_nil_r.
  - unfold bind at 1. rewrite (Hbody x (or_introl eq_refl) r self).
    rewrite IH by (intros y Hy; apply Hbody; now right).
    now rewrite <- List.app_assoc.
Qed.

Section Lookup.
Context `{DunderEq Node}.

(** ** Equality of nodes and [list.index] *)

Lemma py_eq_refl (node : Node) : py_eq node node = true.
Proof. unfold py_eq. now rewrite Nat.eqb_refl. Qed.

Lemma absent_cons item nodes node :
  py_eq item node = false -> absent nodes node -> absent (item :: nodes) node.
Proof. intros Hi Ha x [<-|Hx]; auto. Qed.

Lemma absent_app_inv pre tail node :
  absent (pre ++ tail) node -> absent pre node /\ absent tail node.
Proof.
  intros Ha; split; intros x Hx; apply Ha, in_or_app; auto.
Qed.

(** Either the list splits at the first item equal to [node], or no item
    is equal to it. *)
Lemma first_equal_split (nodes : list Node) (node : Node) :
  (exists pre first post,
      nodes = (pre ++ first :: post)%list /\
      absent pre node /\ py_eq first node = true)
  \/ absent nodes node.
Proof.
  induction nodes as [|item rest IH].
  - right. intros x [].
  - destruct (py_eq item node) eqn:E.
    + left. exists [], item, rest. repeat split; auto. intros x [].
    + destruct IH as [(pre & first & post & -> & Ha & He)|Ha].
      * left. exists (item :: pre), first, post.
        repeat split; auto using absent_cons.
      * right. auto using absent_cons.
Qed.

Lemma index_from_split i pre first post node :
  absent pre node -> py_eq first node = true ->
  index_from i (pre ++ first :: post) node = Some (i + List.length pre).
Proof.
  revert i; induction pre as [|item pre IH]; intros i Ha He; simpl.
  - rewrite He. f_equal. lia.
  - rewrite (Ha item (or_introl eq_refl)).
    rewrite IH; [f_equal; lia | | assumption].
    intros x Hx. apply Ha. now right.
Qed.

Lemma index_from_absent i nodes node :
  absent nodes node -> index_from i nodes node = None.
Proof.
  revert i; induction nodes as [|item rest IH]; intros i Ha; simpl.
  - reflexivity.
  - rewrite (Ha item (or_introl eq_refl)). apply IH.
    intros x Hx. apply Ha. now right.
Qed.

Lemma before_first_equal_split previous pre first post node :
  absent pre node -> py_eq first node = true ->
  before_first_equal previous (pre ++ first :: post) node =
  Some (match rev pre with [] => previous | last :: _ => Some last end).
Proof.
  revert previous; induction pre as [|item pre IH]; intros previous Ha He.
  - simpl. now rewrite He.
  - cbn [app before_first_equal]. rewrite (Ha item (or_introl eq_refl)).
    rewrite IH; [| intros x Hx; apply Ha; now right | assumption].
    simpl. destruct (rev pre) as [|last l]; reflexivity.
Qed.

Lemma before_first_equal_absent previous nodes node :
  absent nodes node -> before_first_equal previous nodes node = None.
Proof.
  revert previous; induction nodes as [|item rest IH]; intros previous Ha.
  - reflexivity.
  - simpl. rewrite (Ha item (or_introl eq_refl)). apply IH.
    intros x Hx. apply Ha. now right.
Qed.

(** A node of the list is never absent from it: the list splits at the
    first item equal to it. *)
Lemma member_split (nodes : list Node) (node : Node) :
  In node nodes ->
  exists pre first post,
    nodes = (pre ++ first :: post)%list /\
    absent pre node /\ py_eq first node = true.
Proof.
  intros Hin. destruct (first_equal_split nodes node) as [Hs|Ha]; [exact Hs|].
  specialize (Ha node Hin). now rewrite py_eq_refl in Ha.
Qed.

Lemma last_item_snoc (pre : list Node) (item : Node) :
  last_item (pre ++ [item]) = Some item.
Proof.
  induction pre as [|x pre IH]; [reflexivity|].
  cbn [app last_item]. rewrite IH. now destruct (pre ++ [item])%list eqn:E;
    [destruct pre; discriminate|].
Qed.

Lemma last_item_rev (pre : list Node) :
  match rev pre with [] => None | last :: _ => Some last end = last_item pre.
Proof.
  induction pre as [|x pre _] using rev_ind; [reflexivity|].
  now rewrite rev_unit, last_item_snoc.
Qed.

(** ** [get_previous_node] *)

Lemma get_previous_node_first function node first post self :
  nodes function = first :: post ->
  py_eq first node = true ->
  get_previous_node function node self = Returns (None, self).
Proof.
  intros En He. unfold get_previous_node, index.
  rewrite En. simpl. now rewrite He.
Qed.

Lemma get_previous_node_later function node pre previous first post self :
  nodes function = ((pre ++ [previous]) ++ first :: post)%list ->
  absent (pre ++ [previous]) node ->
  py_eq first node = true ->
  get_previous_node function node self = Returns (Some previous, self).
Proof.
  intros En Ha He. unfold get_previous_node, index.
  rewrite En, (index_from_split 0 _ _ Ha He).
  rewrite length_app. cbn [List.length].
  replace (0 + (List.length pre + 1)) with (S (List.length pre)) by lia.
  unfold bind at 1, ret at 1. simpl Nat.ltb. cbv iota.
  replace (S (List.length pre) - 1) with (List.length pre) by lia.
  unfold getitem.
  rewrite <- List.app_assoc. rewrite nth_error_app2 by lia.
  rewrite Nat.sub_diag. reflexivity.
Qed.

Lemma get_previous_node_absent function node self :
  absent (nodes function) node ->
  get_previous_node function node self =
  Raises (ValueError "list.index(x): x not in list").
Proof.
  intros Ha. unfold get_previous_node, index.
  now rewrite (index_from_absent 0 Ha).
Qed.

(** The method returns the node before the first item equal to [node], and
    raises when there is no such item. *)
Lemma get_previous_node_spec function node self :
  get_previous_node function node self =
  match before_first_equal None (nodes function) node with
  | Some previous => Returns (previous, self)
  | None => Raises (ValueError "list.index(x): x not in list")
  end.
Proof.
  destruct (first_equal_split (nodes function) node)
    as [(pre & first & post & En & Ha & He)|Ha].
  - rewrite En, (before_first_equal_split None _ _ Ha He).
    destruct (rev pre) as [|last l] eqn:Er.
    + assert (pre = []) as -> by (now apply (f_equal (@rev _)) in Er;
        rewrite rev_involutive in Er).
      now apply get_previous_node_first with (first := first) (post := post).
    + assert (pre = (rev l ++ [last])%list) as Ep
        by (now apply (f_equal (@rev _)) in Er;
            rewrite rev_involutive in Er).
      subst pre.
      now apply get_previous_node_later
        with (pre := rev l) (first := first) (post := post).
  - rewrite (before_first_equal_absent None Ha).
    now apply get_previous_node_absent.
Qed.

(** ** The loops *)

(** Visiting a node of the function never raises, leaves the detector as it
    is, and appends [report function node]. *)
Lemma detect_node_spec function node :
  In node (nodes function) ->
  forall results self,
    detect_node function node results self =
    Returns ((results ++ report function node)%list, self).
Proof.
  intros Hin results self.
  destruct (member_split _ _ Hin) as (pre & first & post & En & Ha & He).
  unfold detect_node, report, reported, flagged, suppressed. cbn [fst snd].
  destruct (NodeType_eqb (type node) EXPRESSION); cbn [andb];
    [| unfold ret; now rewrite List.app_nil_r].
  destruct (search low_level_call_pattern (str (expression node)));
    cbn [andb]; [| unfold ret; now rewrite List.app_nil_r].
  unfold bind. rewrite get_previous_node_spec.
  rewrite En, (before_first_equal_split None _ _ Ha He).
  destruct (rev pre) as [|last l]; cbn [negb].
  - reflexivity.
  - unfold has_marker.
    destruct (contains allowed_comment (get_source_code (source_mapping last)));
      cbn [negb]; unfold ret; [now rewrite List.app_nil_r | reflexivity].
Qed.

Lemma function_loop_spec function results self :
  for_ (nodes function)
       (fun node results => detect_node function node results) results self =
  Returns ((results ++ function_findings function)%list, self).
Proof.
  apply for_appends. intros node Hin. now apply detect_node_spec.
Qed.

(** [_detect] never raises, returns the findings of the model in the order
    of the loops, and leaves the detector as it is. *)
Lemma detect_spec self :
  _detect self = Returns (findings (compilation_unit self), self).
Proof.
  unfold _detect, self_, bind.
  rewrite for_appends with (g := contract_findings); [reflexivity|].
  intros contract _ r s.
  apply for_appends with (g := function_findings).
  intros function _ r' s'. apply function_loop_spec.
Qed.

(** The method in terms of the split of the list at the first equal item. *)
Lemma get_previous_node_split function node pre first post self :
  nodes function = (pre ++ first :: post)%list ->
  absent pre node ->
  py_eq first node = true ->
  get_previous_node function node self = Returns (last_item pre, self).
Proof.
  intros En Ha He.
  rewrite get_previous_node_spec, En.
  rewrite (before_first_equal_split None _ _ Ha He).
  now rewrite last_item_rev.
Qed.

Lemma suppressed_split function node pre first post :
  nodes function = (pre ++ first :: post)%list ->
  absent pre node ->
  py_eq first node = true ->
  suppressed function node =
  match last_item pre with Some previous => has_marker previous | None => false end.
Proof.
  intros En Ha He. unfold suppressed.
  rewrite En, (before_first_equal_split None _ _ Ha He).
  now rewrite last_item_rev.
Qed.

Lemma snoc_neq {A} (l : list A) (x : A) : l <> (l ++ [x])%list.
Proof.
  intros E. apply (f_equal (@List.length A)) in E.
  rewrite length_app in E. simpl in E. lia.
Qed.

Lemma flat_map_map {A B C} (f : B -> list C) (g : A -> B) (l : list A) :
  flat_map f (map g l) = flat_map (fun x => f (g x)) l.
Proof. induction l as [|x l IH]; simpl; [reflexivity | now rewrite IH]. Qed.

Lemma flat_map_filter {A B} (f : A -> list B) (p : A -> bool) (l : list A) :
  (forall x, p x = false -> f x = []) ->
  flat_map f (filter p l) = flat_map f l.
Proof.
  intros Hp. induction l as [|x l IH]; simpl; [reflexivity|].
  destruct (p x) eqn:E; simpl; rewrite IH; [reflexivity|].
  now rewrite (Hp x E).
Qed.

Lemma flat_map_singletons {A B} (f : A -> B) (p : A -> bool) (l : list A) :
  flat_map (fun x => if p x then [f x] else []) l = map f (filter p l).
Proof.
  induction l as [|x l IH]; simpl; [reflexivity|].
  rewrite IH. now destruct (p x).
Qed.

Lemma report_not_expression function node :
  NodeType_eqb (type node) EXPRESSION = false -> report function node = [].
Proof.
  intros E. unfold report, reported, flagged. cbn [fst snd]. now rewrite E.
Qed.

(** The findings are those of the reported visits, in the order of the
    visits. *)
Lemma findings_visits unit :
  findings unit =
  map (fun visit => finding (fst visit) (snd visit))
      (filter reported (visits unit)).
Proof.
  unfold findings, visits, contract_findings, function_findings.
  induction (contracts_derived unit) as [|contract rest IH]; [reflexivity|].
  cbn [flat_map]. rewrite filter_app, map_app, IH. f_equal.
  induction (functions_declared contract) as [|function fs IHf];
    [reflexivity|].
  cbn [flat_map]. rewrite filter_app, map_app, IHf. f_equal.
  induction (nodes function) as [|node ns IHn]; [reflexivity|].
  cbn [flat_map map filter]. rewrite IHn. unfold report.
  now destruct (reported (function, node)).
Qed.

End Lookup.

End DetectorFacts.

(* ===================================================================== *)
(** * The pattern *)
(* ===================================================================== *)

Module PatternFacts.
Import PyStr PyStrFacts Re ReFacts Slither LowLevelCallDetector Findings.
Import Samples.

(** The texts the pattern matches in full. *)
Lemma pattern_matches m :
  Matches low_level_call_pattern m <->
  exists args,
    single_line args = true /\
    (m = ".call(" ++ args ++ ")" \/
     exists opts,
       single_line opts = true /\ m = ".call{" ++ opts ++ "}(" ++ args ++ ")").
Proof.
  unfold low_level_call_pattern. split.
  - intros Hm.
    apply Matches_Seq in Hm as (s1 & s2 & -> & H1 & H2).
    apply Matches_Lit in H1 as ->.
    apply Matches_Seq in H2 as (o & t & -> & Ho & Ht).
    apply Matches_Seq in Ht as (t1 & t2 & -> & Ht1 & Ht2).
    apply Matches_Chr in Ht1 as ->.
    apply Matches_Seq in Ht2 as (args & t3 & -> & Hargs & Ht3).
    apply Matches_Chr in Ht3 as ->.
    apply Matches_Star_Dot in Hargs.
    exists args. split; [assumption|].
    apply Matches_Opt in Ho as [Ho| ->]; [right | left; reflexivity].
    apply Matches_Seq in Ho as (o1 & o2 & -> & Ho1 & Ho2).
    apply Matches_Chr in Ho1 as ->.
    apply Matches_Seq in Ho2 as (opts & o3 & -> & Hopts & Ho3).
    apply Matches_Chr in Ho3 as ->.
    apply Matches_Star_Dot in Hopts.
    exists opts. split; [assumption|].
    simpl. now rewrite <- app_assoc.
  - intros (args & Hargs & [-> | (opts & Hopts & ->)]);
      apply Matches_Star_Dot in Hargs.
    + apply (MSeq (s1 := ".call") (s2 := "(" ++ args ++ ")")).
      { now apply Matches_Lit. }
      apply (MSeq (s1 := "") (s2 := "(" ++ args ++ ")")).
      { apply Matches_Opt. now right. }
      apply (MSeq (s1 := "(") (s2 := args ++ ")")); auto with re.
    + apply Matches_Star_Dot in Hopts.
      replace (".call{" ++ opts ++ "}(" ++ args ++ ")")
        with (".call" ++ ("{" ++ opts ++ "}") ++ ("(" ++ args ++ ")"))
        by (simpl; now rewrite <- app_assoc).
      apply MSeq; [now apply Matches_Lit|].
      apply MSeq.
      { apply Matches_Opt. left.
        apply (MSeq (s1 := "{") (s2 := opts ++ "}")); auto with re. }
      apply (MSeq (s1 := "(") (s2 := args ++ ")")); auto with re.
Qed.

(** A match anywhere in a text is a match in any text around it. *)
Lemma search_around r before s after :
  search r s = true -> search r (before ++ s ++ after) = true.
Proof.
  rewrite !search_spec. intros (b & m & a & -> & Hm).
  exists (before ++ b), m, (a ++ after). split; [|assumption].
  now rewrite <- !app_assoc.
Qed.

(** C3. The pattern matcher answers true on the renderings [x.call(data)],
    [x.call{value: 1}(data)] and [call_with_options], and
    false on [x.transfer(1)] and on [x.caller].  One match is enough
    whatever stands around it, whether other call-like text or none; the
    answer is a function of the text alone. *)
Theorem pattern_coverage :
  search low_level_call_pattern "x.call(data)" = true /\
  search low_level_call_pattern "x.call{value: 1}(data)" = true /\
  search low_level_call_pattern call_with_options = true /\
  search low_level_call_pattern "x.transfer(1)" = false /\
  search low_level_call_pattern "x.caller" = false /\
  (forall before after,
      search low_level_call_pattern (before ++ "x.call(data)" ++ after)
      = true).
Proof.
  repeat split; try reflexivity.
  intros before after. now apply search_around.
Qed.

(** C4, as the claim words it, fails: a text of the shape [.call(...)]
    whose parentheses hold a line feed is not matched, since [.] refuses
    the line feed. *)
Lemma line_feed_breaks_the_shape :
  call_shape_any call_over_two_lines /\
  search low_level_call_pattern call_over_two_lines = false.
Proof.
  split; [|reflexivity].
  exists "", (String newline ""), "". left. reflexivity.
Qed.

(** C4, amended.  For every text, the pattern matcher answers true exactly
    when the text contains [.call], optionally followed by [{...}], then
    [(...)], where each [...] is a possibly empty run of characters other
    than the line feed; nothing is required of brackets inside the runs. *)
Theorem search_iff_call_shape (s : string) :
  search low_level_call_pattern s = true <-> call_shape s.
Proof.
  rewrite search_spec. unfold call_shape. split.
  - intros (before & m & after & -> & Hm).
    apply pattern_matches in Hm as (args & Hargs & [-> | (opts & Hopts & ->)]);
      exists before, args, after; (split; [assumption|]).
    + left. f_equal. simpl. now rewrite <- app_assoc.
    + right. exists opts. split; [assumption|]. f_equal. simpl.
      rewrite <- !app_assoc. simpl. now rewrite <- app_assoc.
  - intros (before & args & after & Hargs & [-> | (opts & Hopts & ->)]).
    + exists before, (".call(" ++ args ++ ")"), after. split.
      * f_equal. simpl. now rewrite <- app_assoc.
      * apply pattern_matches. exists args. auto.
    + exists before, (".call{" ++ opts ++ "}(" ++ args ++ ")"), after. split.
      * f_equal. simpl. rewrite <- !app_assoc. simpl.
        now rewrite <- app_assoc.
      * apply pattern_matches. exists args. split; [assumption|].
        right. exists opts. auto.
Qed.

End PatternFacts.

(* ===================================================================== *)
(** * Properties of the detection pass *)
(* ===================================================================== *)

Module Properties.
Import PyStr PyStrFacts Re ReFacts Slither LowLevelCallDetector Findings.
Import DetectorFacts Samples.

Section AnyEquality.
Context `{DunderEq Node}.

(** The suppression check at the first equal occurrence of a node.  When
    nothing listed before a matched expression statement is equal to it,
    visiting it leaves the results as they are if and only if the source
    text of the node just before it contains the marker, and appends its
    finding otherwise. *)
Theorem suppression_iff_marker_before_first_occurrence
    function pre previous node post results self :
  nodes function = (pre ++ previous :: node :: post)%list ->
  absent (pre ++ [previous]) node ->
  type node = EXPRESSION ->
  search low_level_call_pattern (str (expression node)) = true ->
  (detect_node function node results self = Returns (results, self) <->
   exists before after,
     get_source_code (source_mapping previous)
     = before ++ allowed_comment ++ after)
  /\
  (detect_node function node results self
   = Returns ((results ++ [finding function node])%list, self) <->
   ~ exists before after,
       get_source_code (source_mapping previous)
       = before ++ allowed_comment ++ after).
Proof.
  intros En Ha Et Hs.
  assert (Hprev : get_previous_node function node self
                  = Returns (Some previous, self)).
  { apply get_previous_node_later with (pre := pre) (first := node) (post := post);
      auto using py_eq_refl.
    now rewrite <- List.app_assoc. }
  assert (Hk : NodeType_eqb (type node) EXPRESSION = true) by now rewrite Et.
  unfold detect_node. rewrite Hk, Hs. unfold bind. rewrite Hprev.
  rewrite <- contains_spec.
  destruct (contains allowed_comment
              (get_source_code (source_mapping previous))); cbn [negb];
    unfold ret; split; split; intros E; try reflexivity;
    try discriminate; try congruence.
  - injection E as E. now apply snoc_neq in E.
  - injection E as E. symmetry in E. now apply snoc_neq in E.
Qed.

(** C2.  A matching expression-statement node that stands first in the
    node sequence of a function is always reported: visiting it appends its
    finding, and the finding is in the output of the pass, whatever else
    the function contains. *)
Theorem first_node_always_reported self contract function node rest :
  In contract (contracts_derived (compilation_unit self)) ->
  In function (functions_declared contract) ->
  nodes function = node :: rest ->
  type node = EXPRESSION ->
  search low_level_call_pattern (str (expression node)) = true ->
  (forall results s,
      detect_node function node results s
      = Returns ((results ++ [finding function node])%list, s))
  /\
  exists out,
    _detect self = Returns (out, self) /\ In (finding function node) out.
Proof.
  intros Hc Hf En Et Hs.
  assert (Hr : report function node = [finding function node]).
  { unfold report, reported, flagged, suppressed. cbn [fst snd].
    rewrite Et, Hs, En. cbn [before_first_equal].
    now rewrite py_eq_refl. }
  split.
  - intros results s. rewrite detect_node_spec, Hr; [reflexivity|].
    rewrite En. now left.
  - exists (findings (compilation_unit self)). split; [apply detect_spec|].
    unfold findings. apply in_flat_map. exists contract. split; [assumption|].
    unfold contract_findings. apply in_flat_map.
    exists function. split; [assumption|].
    unfold function_findings. apply in_flat_map.
    exists node. rewrite En, Hr. split; now left.
Qed.

(** C5, amended.  A node of expression kind without an expression does
    not make the pass fail.  It is rendered as the text [None], which the
    pattern does not match, so visiting it adds nothing and raises nothing;
    and the pass returns, in order, exactly the findings of the nodes that
    have an expression, each checked against the node [get_previous_node]
    finds for it in the whole sequence. *)
Theorem missing_expression_is_skipped self function node results s :
  type node = EXPRESSION ->
  expression node = None ->
  detect_node function node results s = Returns (results, s) /\
  _detect self =
  Returns
    (flat_map (fun contract =>
       flat_map (fun function =>
         flat_map (report function)
                  (filter Rendering.has_expression (nodes function)))
         (functions_declared contract))
       (contracts_derived (compilation_unit self)), self).
Proof.
  intros Et Ee. split.
  - unfold detect_node. now rewrite Et, Ee.
  - rewrite detect_spec. f_equal. f_equal.
    unfold findings, contract_findings, function_findings.
    apply flat_map_ext. intros contract'.
    apply flat_map_ext. intros function'.
    symmetry. apply flat_map_filter. intros node' Hn.
    unfold Rendering.has_expression in Hn.
    unfold report, reported, flagged. cbn [fst snd].
    destruct (expression node'); [discriminate|].
    now rewrite andb_false_r.
Qed.

(** C6.  The pass reads the derived contracts of the compilation unit,
    the functions each of them declares, and of their nodes only the
    expression statements are candidates: the output is unchanged by the
    contracts outside the derived list and by the functions a contract does
    not declare, and visiting a node of another kind adds nothing. *)
Theorem traversal_scope self function node results s :
  NodeType_eqb (type node) EXPRESSION = false ->
  _detect self =
  Returns
    (flat_map (fun contract =>
       flat_map (fun function =>
         flat_map (report function)
           (filter (fun node => NodeType_eqb (type node) EXPRESSION)
                   (nodes function)))
         (functions_declared contract))
       (contracts_derived (compilation_unit self)), self)
  /\ (forall all, exists out,
        _detect self = Returns (out, self) /\
        _detect (with_contracts all self)
        = Returns (out, with_contracts all self))
  /\ (forall all, exists out,
        _detect self = Returns (out, self) /\
        _detect (with_functions all self)
        = Returns (out, with_functions all self))
  /\ detect_node function node results s = Returns (results, s).
Proof.
  intros Et. repeat split.
  - rewrite detect_spec. f_equal. f_equal.
    unfold findings, contract_findings, function_findings.
    apply flat_map_ext. intros contract.
    apply flat_map_ext. intros function'.
    symmetry. apply flat_map_filter. apply report_not_expression.
  - intros all. exists (findings (compilation_unit self)).
    split; [apply detect_spec|]. now rewrite detect_spec.
  - intros all. exists (findings (compilation_unit self)).
    split; [apply detect_spec|]. rewrite detect_spec. f_equal. f_equal.
    unfold with_functions, findings. cbn [compilation_unit contracts_derived].
    now rewrite flat_map_map.
  - unfold detect_node. now rewrite Et.
Qed.

(** C7.  The output lists the findings in the order the matching nodes
    are met: contract after contract, within a contract function after
    function, within a function node after node, as the model gives them.
    In particular the findings of the contracts listed first come before
    those of the contracts listed after them. *)
Theorem findings_in_traversal_order self :
  _detect self =
  Returns
    (List.concat (map (fun contract =>
       List.concat (map (fun function =>
         List.concat (map (report function) (nodes function)))
         (functions_declared contract)))
       (contracts_derived (compilation_unit self))), self)
  /\ forall first second, exists out1 out2,
       _detect (detector_of first) = Returns (out1, detector_of first) /\
       _detect (detector_of second) = Returns (out2, detector_of second) /\
       _detect (detector_of (first ++ second))
       = Returns ((out1 ++ out2)%list, detector_of (first ++ second)).
Proof.
  split.
  - rewrite detect_spec. f_equal. f_equal.
    unfold findings, contract_findings, function_findings.
    rewrite flat_map_concat_map. f_equal. apply map_ext. intros contract.
    rewrite flat_map_concat_map. f_equal. apply map_ext. intros function.
    apply flat_map_concat_map.
  - intros first second.
    exists (findings (compilation_unit (detector_of first))),
           (findings (compilation_unit (detector_of second))).
    rewrite !detect_spec. repeat split.
    f_equal. f_equal. unfold findings, detector_of.
    cbn [compilation_unit contracts_derived]. apply flat_map_app.
Qed.

(** C8.  Every finding of the output stands for one visit of a node that
    matched the pattern and was not suppressed, and every such visit gives
    one finding: the output is the list of the reported visits, each turned
    into its finding.  There are no more findings than visits of matching
    nodes, and the message of a finding names the function and carries the
    rendering of the expression. *)
Theorem findings_are_reported_visits self :
  exists out,
    _detect self = Returns (out, self) /\
    out = map (fun visit => finding (fst visit) (snd visit))
              (filter reported (visits (compilation_unit self))) /\
    List.length out
    <= List.length (filter (fun visit => flagged (snd visit))
                           (visits (compilation_unit self))) /\
    Forall (fun visit =>
              let function := fst visit in
              let node := snd visit in
              let result := finding function node in
              info result
              = [message (name function) (str (expression node))] /\
              contains (name function) (description result) = true /\
              contains (str (expression node)) (description result) = true)
           (filter reported (visits (compilation_unit self))).
Proof.
  exists (findings (compilation_unit self)).
  split; [apply detect_spec|]. split; [apply findings_visits|]. split.
  - rewrite findings_visits, length_map.
    induction (visits (compilation_unit self)) as [|visit l IH];
      [reflexivity|].
    cbn [filter]. unfold reported at 1.
    destruct (flagged (snd visit)); cbn [andb].
    + destruct (negb _); cbn [List.length]; lia.
    + exact IH.
  - apply Forall_forall. intros [function node] _. cbn [fst snd].
    split; [reflexivity|].
    unfold description, finding, generate_result, join, message.
    cbn [info String.concat].
    split; apply contains_spec.
    + now exists "Function ",
        (" contains a low-level call: " ++ str (expression node)
         ++ " without explicit comment allowance").
    + exists ("Function " ++ name function ++ " contains a low-level call: "),
        " without explicit comment allowance".
      now rewrite <- !app_assoc.
Qed.

(** C10.  The previous-node lookup finds the matched node by equality: it
    returns the node standing just before the first item of the sequence
    that is equal to the matched node, and nothing when that item stands
    first.  The check on a later duplicate therefore reads the node before
    the first equal occurrence; it reads the positional predecessor only
    when the node visited is that first occurrence. *)
Theorem previous_node_is_before_first_equal
    function node pre first post results self :
  nodes function = (pre ++ first :: post)%list ->
  absent pre node ->
  py_eq first node = true ->
  get_previous_node function node self = Returns (last_item pre, self) /\
  detect_node function node results self =
  Returns
    ((results ++
      if flagged node &&
         negb match last_item pre with
              | Some previous => has_marker previous
              | None => false
              end
      then [finding function node] else [])%list, self).
Proof.
  intros En Ha He. split.
  - now apply get_previous_node_split with (first := first) (post := post).
  - unfold detect_node, flagged.
    destruct (NodeType_eqb (type node) EXPRESSION); cbn [andb];
      [| unfold ret; now rewrite List.app_nil_r].
    destruct (search low_level_call_pattern (str (expression node)));
      cbn [andb]; [| unfold ret; now rewrite List.app_nil_r].
    unfold bind.
    rewrite (get_previous_node_split function _ _ self En Ha He).
    unfold has_marker.
    destruct (last_item pre) as [previous|]; [|reflexivity].
    destruct (contains allowed_comment
                (get_source_code (source_mapping previous)));
      cbn [negb]; unfold ret; [now rewrite List.app_nil_r | reflexivity].
Qed.

End AnyEquality.

(** ** The properties on the sample inputs

    Nodes are compared as slither's are: by identity. *)

#[local] Existing Instance object_eq.

(** A one-node list without an item equal to [node]. *)
Lemma absent_one (item node : Node) :
  py_eq item node = false -> absent [item] node.
Proof. intros E x [<-|[]]. exact E. Defined.

(** The check on [marked]: the call after the marker. *)
Lemma suppression_iff_marker_before_first_occurrence_witness :
  let self := detector_of [contract_of marked] in
  nodes marked = ([] ++ annotation :: raw_call :: [])%list /\
  absent ([] ++ [annotation]) raw_call /\
  type raw_call = EXPRESSION /\
  search low_level_call_pattern (str (expression raw_call)) = true /\
  (detect_node marked raw_call [] self = Returns ([], self) <->
   exists before after,
     get_source_code (source_mapping annotation)
     = before ++ allowed_comment ++ after)
  /\
  (detect_node marked raw_call [] self
   = Returns (([] ++ [finding marked raw_call])%list, self) <->
   ~ exists before after,
       get_source_code (source_mapping annotation)
       = before ++ allowed_comment ++ after).
Proof.
  intros self.
  assert (Ha : absent ([] ++ [annotation]) raw_call)
    by (apply absent_one; reflexivity).
  split; [reflexivity|]. split; [exact Ha|]. do 2 (split; [reflexivity|]).
  exact (@suppression_iff_marker_before_first_occurrence object_eq
           marked [] annotation raw_call [] [] self
           eq_refl Ha eq_refl eq_refl).
Defined.

(** Outside the model: one node object listed twice.  In [twice] the
    second copy of the call stands right after an unmarked node, and the
    lookup finds the first copy and the marker before it; in
    [first_and_again] the second copy stands right after the marker, and
    the lookup finds the first copy, which has no predecessor. *)
Lemma positional_predecessor_not_consulted :
  (nodes twice = ([annotation; raw_call] ++ plain :: raw_call :: [])%list /\
   type raw_call = EXPRESSION /\
   search low_level_call_pattern (str (expression raw_call)) = true /\
   contains allowed_comment (get_source_code (source_mapping plain)) = false /\
   detect_node twice raw_call [] (detector_of [contract_of twice])
   = Returns ([], detector_of [contract_of twice]) /\
   _detect (detector_of [contract_of twice])
   = Returns ([], detector_of [contract_of twice]))
  /\
  (nodes first_and_again = ([raw_call] ++ annotation :: raw_call :: [])%list /\
   contains allowed_comment (get_source_code (source_mapping annotation))
   = true /\
   detect_node first_and_again raw_call []
     (detector_of [contract_of first_and_again])
   = Returns ([finding first_and_again raw_call],
              detector_of [contract_of first_and_again])).
Proof. repeat split; reflexivity. Qed.

(** C2 on [alone]: the call is the only node. *)
Lemma first_node_always_reported_witness :
  let self := detector_of [contract_of alone] in
  In (contract_of alone) (contracts_derived (compilation_unit self)) /\
  In alone (functions_declared (contract_of alone)) /\
  nodes alone = raw_call :: [] /\
  type raw_call = EXPRESSION /\
  search low_level_call_pattern (str (expression raw_call)) = true /\
  (forall results s,
      detect_node alone raw_call results s
      = Returns ((results ++ [finding alone raw_call])%list, s)) /\
  exists out,
    _detect self = Returns (out, self) /\ In (finding alone raw_call) out.
Proof.
  intros self.
  assert (Hc : In (contract_of alone)
                  (contracts_derived (compilation_unit self)))
    by (left; reflexivity).
  assert (Hf : In alone (functions_declared (contract_of alone)))
    by (left; reflexivity).
  split; [exact Hc|]. split; [exact Hf|]. do 3 (split; [reflexivity|]).
  exact (@first_node_always_reported object_eq
           self (contract_of alone) alone raw_call []
           Hc Hf eq_refl eq_refl eq_refl).
Defined.

(** C5, as the claim words it, fails: a pass over a function holding an
    expression-kind node without an expression raises nothing and returns
    the finding of the node that follows. *)
Lemma hollow_node_does_not_stop_the_pass :
  type hollow = EXPRESSION /\
  expression hollow = None /\
  In hollow (nodes with_hollow) /\
  _detect (detector_of [contract_of with_hollow])
  = Returns ([finding with_hollow raw_call],
             detector_of [contract_of with_hollow]) /\
  ~ exists e, _detect (detector_of [contract_of with_hollow]) = Raises e.
Proof.
  repeat split; try reflexivity.
  - now left.
  - intros [e He]. discriminate He.
Qed.

(** The amended C5 on [with_hollow]: the call after the hollow node is
    reported. *)
Lemma missing_expression_is_skipped_witness :
  let self := detector_of [contract_of with_hollow] in
  type hollow = EXPRESSION /\
  expression hollow = None /\
  detect_node with_hollow hollow [] self = Returns ([], self) /\
  _detect self = Returns ([finding with_hollow raw_call], self).
Proof.
  intros self. do 2 (split; [reflexivity|]).
  exact (@missing_expression_is_skipped object_eq
           self with_hollow hollow [] self eq_refl eq_refl).
Defined.

(** C6 on an entry-point node. *)
Lemma traversal_scope_witness :
  let self := detector_of [contract_of alone] in
  NodeType_eqb (type entry) EXPRESSION = false /\
  detect_node alone entry [] self = Returns ([], self).
Proof.
  intros self. split; [reflexivity|].
  exact (proj2 (proj2 (proj2
           (@traversal_scope object_eq self alone entry [] self eq_refl)))).
Defined.

(** C10 on [twice]: the later copy of the call is checked against the
    node before the first copy, not against [plain]. *)
Lemma previous_node_is_before_first_equal_witness :
  let self := detector_of [contract_of twice] in
  nodes twice = ([annotation] ++ raw_call :: [plain; raw_call])%list /\
  absent [annotation] raw_call /\
  py_eq raw_call raw_call = true /\
  get_previous_node twice raw_call self = Returns (Some annotation, self) /\
  detect_node twice raw_call [] self = Returns ([], self).
Proof.
  intros self.
  assert (Ha : absent [annotation] raw_call)
    by (apply absent_one; reflexivity).
  split; [reflexivity|]. split; [exact Ha|]. split; [reflexivity|].
  exact (@previous_node_is_before_first_equal object_eq
           twice raw_call [annotation] raw_call [plain; raw_call] [] self
           eq_refl Ha eq_refl).
Defined.

(** ** The scenarios of the specification *)

Example scenario_unmarked :
  _detect (detector_of [contract_of unmarked])
  = Returns ([finding unmarked raw_call], detector_of [contract_of unmarked]).
Proof. reflexivity. Qed.

Example scenario_marked :
  _detect (detector_of [contract_of marked])
  = Returns ([], detector_of [contract_of marked]).
Proof. reflexivity. Qed.

Example scenario_alone :
  _detect (detector_of [contract_of alone])
  = Returns ([finding alone raw_call], detector_of [contract_of alone]).
Proof. reflexivity. Qed.

Example scenario_no_call :
  _detect (detector_of
             [contract_of {| name := "k";
                             nodes := [plain;
                                       node 8 EXPRESSION
                                            (Some "y.transfer(x)")
                                            "y.transfer(x);"] |}])
  = Returns ([], detector_of
             [contract_of {| name := "k";
                             nodes := [plain;
                                       node 8 EXPRESSION
                                            (Some "y.transfer(x)")
                                            "y.transfer(x);"] |}]).
Proof. reflexivity. Qed.

Example scenario_two_contracts :
  _detect (detector_of [contract_of unmarked; contract_of alone])
  = Returns ([finding unmarked raw_call; finding alone raw_call],
             detector_of [contract_of unmarked; contract_of alone]).
Proof. reflexivity. Qed.

Example near_misses_do_not_suppress :
  has_marker annotation = true /\
  has_marker round_brackets = false /\
  has_marker other_case = false /\
  has_marker other_words = false.
Proof. repeat split; reflexivity. Qed.

Example message_text :
  description (finding alone raw_call)
  = "Function h contains a low-level call: addr.call(data) without explicit comment allowance".
Proof. reflexivity. Qed.

End Properties.

(* ===================================================================== *)
(** * Further properties of the lookup, the pattern and the pass *)
(* ===================================================================== *)

Module MoreFacts.
Import PyStr PyStrFacts Re ReFacts Slither LowLevelCallDetector Findings.
Import DetectorFacts PatternFacts Positional Samples.

Section AnyEquality.
Context `{DunderEq Node}.

(** ** Lists *)

Lemma last_item_None (l : list Node) : last_item l = None -> l = [].
Proof.
  induction l as [|x l _] using rev_ind; [reflexivity|].
  now rewrite last_item_snoc.
Qed.

Lemma last_item_Some (l : list Node) (p : Node) :
  last_item l = Some p -> exists l', l = (l' ++ [p])%list.
Proof.
  induction l as [|x l _] using rev_ind; [discriminate|].
  rewrite last_item_snoc. intros [= ->]. now exists l.
Qed.

Lemma last_item_length (l rest : list Node) :
  last_item l =
  match List.length l with
  | 0 => None
  | S k => nth_error (l ++ rest) k
  end.
Proof.
  induction l as [|x l _] using rev_ind; [reflexivity|].
  rewrite last_item_snoc, length_app. cbn [List.length].
  replace (List.length l + 1) with (S (List.length l)) by lia.
  rewrite <- List.app_assoc, nth_error_app2 by lia.
  now rewrite Nat.sub_diag.
Qed.

Lemma flat_map_agree {A B} (f g : A -> list B) (l : list A) :
  (forall x, In x l -> f x = g x) -> flat_map f l = flat_map g l.
Proof.
  induction l as [|x l IH]; intros Hfg; [reflexivity|].
  cbn [flat_map]. rewrite (Hfg x (or_introl eq_refl)), IH; [reflexivity|].
  intros y Hy. apply Hfg. now right.
Qed.

(** In a list of distinct nodes, nothing before a node is equal to it. *)
Lemma distinct_absent (pre post : list Node) (node : Node) :
  distinct (pre ++ node :: post) = true -> absent pre node.
Proof.
  induction pre as [|x pre IH]; intros Hd item Hin; [destruct Hin|].
  cbn [app distinct] in Hd. apply andb_true_iff in Hd as [Hx Hd].
  destruct Hin as [<-|Hin]; [|now apply IH].
  rewrite forallb_forall in Hx.
  specialize (Hx node (in_elt node pre post)).
  now apply negb_true_iff in Hx.
Qed.

(** ** The suppression check *)

(** C1.  In a node sequence as the program model gives it, no node listed
    twice, take a matched expression statement that has a node immediately
    before it.  Its finding is suppressed if and only if the rendered
    source text of that preceding node contains the marker
    [[slither: low-level call explicitly allowed]] as an exact,
    case-sensitive run of characters; with any other text there, whatever
    the other nodes hold, exactly its finding is appended. *)
Theorem suppression_iff_marker_in_preceding_node
    function pre previous node post results self :
  distinct (nodes function) = true ->
  nodes function = (pre ++ previous :: node :: post)%list ->
  type node = EXPRESSION ->
  search low_level_call_pattern (str (expression node)) = true ->
  (detect_node function node results self = Returns (results, self) <->
   exists before after,
     get_source_code (source_mapping previous)
     = before ++ allowed_comment ++ after)
  /\
  (detect_node function node results self
   = Returns ((results ++ [finding function node])%list, self) <->
   ~ exists before after,
       get_source_code (source_mapping previous)
       = before ++ allowed_comment ++ after).
Proof.
  intros Hd En Et Hs.
  apply Properties.suppression_iff_marker_before_first_occurrence
    with (pre := pre) (post := post); try assumption.
  apply distinct_absent with (post := post).
  rewrite <- List.app_assoc. cbn [app]. now rewrite <- En.
Qed.

(** ** The lookup *)

(** X1.  [get_previous_node] has two outcomes and no other.  When no node
    of the function is equal to the node looked up, it raises the
    [ValueError] of [list.index]; otherwise the list splits at the first
    equal item and the method returns the node standing just before that
    item, if any.  It never raises out of range. *)
Theorem get_previous_node_outcomes function node self :
  (absent (nodes function) node /\
   get_previous_node function node self
   = Raises (ValueError "list.index(x): x not in list"))
  \/
  (exists pre first post,
      nodes function = (pre ++ first :: post)%list /\
      absent pre node /\
      py_eq first node = true /\
      get_previous_node function node self = Returns (last_item pre, self)).
Proof.
  destruct (first_equal_split (nodes function) node)
    as [(pre & first & post & En & Ha & He)|Ha].
  - right. exists pre, first, post. repeat split; try assumption.
    now apply get_previous_node_split with (first := first) (post := post).
  - left. split; [assumption|]. now apply get_previous_node_absent.
Qed.

(** X2.  The lookup answers [None] exactly when the very first node of the
    function is equal to the node looked up. *)
Theorem get_previous_node_none_iff function node self :
  get_previous_node function node self = Returns (None, self) <->
  exists first post,
    nodes function = first :: post /\ py_eq first node = true.
Proof.
  split.
  - intros Hr.
    destruct (first_equal_split (nodes function) node)
      as [(pre & first & post & En & Ha & He)|Ha].
    + rewrite (get_previous_node_split function _ _ self En Ha He) in Hr.
      injection Hr as Hl. apply last_item_None in Hl. subst pre.
      now exists first, post.
    + now rewrite (get_previous_node_absent function self Ha) in Hr.
  - intros (first & post & En & He).
    now apply get_previous_node_first with (first := first) (post := post).
Qed.

(** X3.  A node the lookup returns is a node of the function, it stands
    immediately before an item equal to the node looked up, it is itself
    not equal to that node, and the detector is left as it was. *)
Theorem get_previous_node_some function node previous self self' :
  get_previous_node function node self = Returns (Some previous, self') ->
  self' = self /\
  In previous (nodes function) /\
  py_eq previous node = false /\
  exists pre first post,
    nodes function = (pre ++ previous :: first :: post)%list /\
    py_eq first node = true.
Proof.
  intros Hr.
  destruct (first_equal_split (nodes function) node)
    as [(pre & first & post & En & Ha & He)|Ha].
  - rewrite (get_previous_node_split function _ _ self En Ha He) in Hr.
    injection Hr as Hl <-.
    apply last_item_Some in Hl as [pre' ->].
    rewrite <- List.app_assoc in En. cbn [app] in En.
    repeat split.
    + rewrite En. apply in_elt.
    + apply Ha, in_or_app. right. now left.
    + now exists pre', first, post.
  - now rewrite (get_previous_node_absent function self Ha) in Hr.
Qed.

(** X4.  When no node of the function is equal to a node listed after it,
    the lookup is positional: for the node at index [i] it returns the node
    at index [i - 1], and nothing for the node at index 0. *)
Theorem get_previous_node_positional function node i self :
  distinct (nodes function) = true ->
  nth_error (nodes function) i = Some node ->
  get_previous_node function node self =
  Returns (match i with
           | 0 => None
           | S k => nth_error (nodes function) k
           end, self).
Proof.
  intros Hd Hn.
  destruct (nth_error_split _ _ Hn) as (pre & post & En & Hl).
  rewrite En in Hd.
  rewrite (get_previous_node_split function _ _ self En
             (distinct_absent _ _ _ Hd) (py_eq_refl node)).
  rewrite (last_item_length pre (node :: post)), Hl, <- En.
  reflexivity.
Qed.

(** ** The pass on distinct nodes *)

Lemma report_positional function done node rest :
  nodes function = (done ++ node :: rest)%list ->
  distinct (nodes function) = true ->
  report function node = positional_report function (last_item done) node.
Proof.
  intros En Hd. rewrite En in Hd.
  unfold report, reported, positional_report. cbn [fst snd].
  now rewrite (@suppressed_split _ function node done node rest En
                 (distinct_absent _ _ _ Hd) (py_eq_refl node)).
Qed.

Lemma function_findings_positional function :
  distinct (nodes function) = true ->
  function_findings function
  = positional_findings function None (nodes function).
Proof.
  intros Hd. unfold function_findings.
  enough (Hgen : forall rest done,
             nodes function = (done ++ rest)%list ->
             flat_map (report function) rest
             = positional_findings function (last_item done) rest)
    by exact (Hgen (nodes function) [] eq_refl).
  induction rest as [|node rest IH]; intros done En; [reflexivity|].
  cbn [flat_map positional_findings].
  rewrite (@report_positional function done node rest En Hd). f_equal.
  rewrite <- (last_item_snoc done node). apply IH.
  now rewrite <- List.app_assoc.
Qed.

(** X5.  On a model in which every declared function of every derived
    contract lists distinct nodes, the pass computes the positional rule:
    each matching expression statement is checked against the node standing
    immediately before it in the sequence, and the first node against
    none. *)
Theorem detect_is_positional_on_distinct_nodes self :
  (forall contract,
      In contract (contracts_derived (compilation_unit self)) ->
      forall function,
        In function (functions_declared contract) ->
        distinct (nodes function) = true) ->
  _detect self =
  Returns
    (flat_map (fun contract =>
       flat_map (fun function =>
                   positional_findings function None (nodes function))
                (functions_declared contract))
       (contracts_derived (compilation_unit self)), self).
Proof.
  intros Hd. rewrite detect_spec. f_equal. f_equal.
  unfold findings, contract_findings.
  induction (contracts_derived (compilation_unit self)) as [|contract cs IHc];
    [reflexivity|].
  cbn [flat_map]. rewrite IHc by (intros c Hc; apply Hd; now right).
  f_equal.
  assert (Hf : forall function, In function (functions_declared contract) ->
                                distinct (nodes function) = true)
    by (apply Hd; now left).
  induction (functions_declared contract) as [|function fs IHf];
    [reflexivity|].
  cbn [flat_map]. rewrite IHf by (intros f Hin; apply Hf; now right).
  f_equal. apply function_findings_positional. apply Hf. now left.
Qed.

(** X7.  Statements added at the end of a function leave the findings of
    the statements before them as they were: the output for the longer
    function starts with the output for the shorter one. *)
Theorem appended_nodes_keep_earlier_findings
    contract1 contract2 function1 function2 more :
  functions_declared contract1 = [function1] ->
  functions_declared contract2 = [function2] ->
  name function2 = name function1 ->
  nodes function2 = (nodes function1 ++ more)%list ->
  exists out extra,
    _detect (detector_of [contract1])
    = Returns (out, detector_of [contract1]) /\
    _detect (detector_of [contract2])
    = Returns ((out ++ extra)%list, detector_of [contract2]).
Proof.
  intros E1 E2 En Em.
  exists (function_findings function1), (flat_map (report function2) more).
  rewrite !detect_spec. unfold findings, detector_of, contract_findings.
  cbn [compilation_unit contracts_derived flat_map].
  rewrite E1, E2. cbn [flat_map]. rewrite !List.app_nil_r.
  split; [reflexivity|]. f_equal. f_equal.
  unfold function_findings. rewrite Em, flat_map_app. f_equal.
  apply flat_map_agree. intros node Hin.
  destruct (member_split _ _ Hin) as (pre & first & post & Ep & Ha & He).
  assert (Ep2 : nodes function2 = (pre ++ first :: (post ++ more))%list).
  { rewrite Em, Ep, <- List.app_assoc. reflexivity. }
  unfold report, reported, finding. cbn [fst snd].
  rewrite (@suppressed_split _ function1 node pre first post Ep Ha He).
  rewrite (@suppressed_split _ function2 node pre first (post ++ more)
             Ep2 Ha He).
  now rewrite En.
Qed.

(** X8.  The pass returns no finding exactly when every visit of a
    matching expression statement is suppressed. *)
Theorem no_finding_iff_all_suppressed self :
  _detect self = Returns ([], self) <->
  Forall (fun visit =>
            flagged (snd visit) = true ->
            suppressed (fst visit) (snd visit) = true)
         (visits (compilation_unit self)).
Proof.
  rewrite detect_spec, findings_visits.
  induction (visits (compilation_unit self)) as [|visit l IH].
  - split; [constructor | reflexivity].
  - cbn [filter]. unfold reported at 1.
    rewrite Forall_cons_iff, <- IH. cbv beta.
    destruct (flagged (snd visit));
      destruct (suppressed (fst visit) (snd visit)); cbn [andb negb map];
      split; try discriminate; try (intros [Hv Hl]); auto.
    discriminate (Hv eq_refl).
Qed.

End AnyEquality.

(** ** The pattern *)

(** Both sides of an equation between texts, with every concatenation
    associated to the right and the literals unfolded. *)
Ltac right_associate :=
  repeat first [rewrite <- app_assoc | progress cbn [append]]; reflexivity.

(** X6.  A text the pattern matcher accepts contains [.call(] or [.call{],
    and a closing parenthesis: texts without them are never flagged. *)
Theorem flagged_text_holds_call_and_parenthesis (s : string) :
  search low_level_call_pattern s = true ->
  (contains ".call(" s = true \/ contains ".call{" s = true) /\
  contains ")" s = true.
Proof.
  intros Hs. apply search_spec in Hs as (before & m & after & -> & Hm).
  apply pattern_matches in Hm as (args & _ & [-> | (opts & _ & ->)]).
  - split; [left|]; apply contains_spec.
    + exists before, (args ++ ")" ++ after). right_associate.
    + exists (before ++ ".call(" ++ args), after. right_associate.
  - split; [right|]; apply contains_spec.
    + exists before, (opts ++ "}(" ++ args ++ ")" ++ after). right_associate.
    + exists (before ++ ".call{" ++ opts ++ "}(" ++ args), after.
      right_associate.
Qed.

(** ** The properties on the sample inputs *)

#[local] Existing Instance object_eq.

(** C1 on [marked]: the call after the marker. *)
Lemma suppression_iff_marker_in_preceding_node_witness :
  let self := detector_of [contract_of marked] in
  distinct (nodes marked) = true /\
  nodes marked = ([] ++ annotation :: raw_call :: [])%list /\
  type raw_call = EXPRESSION /\
  search low_level_call_pattern (str (expression raw_call)) = true /\
  (detect_node marked raw_call [] self = Returns ([], self) <->
   exists before after,
     get_source_code (source_mapping annotation)
     = before ++ allowed_comment ++ after)
  /\
  (detect_node marked raw_call [] self
   = Returns (([] ++ [finding marked raw_call])%list, self) <->
   ~ exists before after,
       get_source_code (source_mapping annotation)
       = before ++ allowed_comment ++ after).
Proof.
  intros self. do 4 (split; [reflexivity|]).
  exact (@suppression_iff_marker_in_preceding_node object_eq
           marked [] annotation raw_call [] [] self
           eq_refl eq_refl eq_refl eq_refl).
Defined.

(** A marker in round brackets, in other case or in other words leaves the
    call reported. *)
Example near_misses_are_reported :
  _detect (detector_of
             [contract_of {| name := "f";
                             nodes := [round_brackets; raw_call] |};
              contract_of {| name := "g";
                             nodes := [other_case; raw_call] |};
              contract_of {| name := "h";
                             nodes := [other_words; raw_call] |}])
  = Returns
      ([generate_result [message "f" "addr.call(data)"];
        generate_result [message "g" "addr.call(data)"];
        generate_result [message "h" "addr.call(data)"]],
       detector_of
         [contract_of {| name := "f";
                         nodes := [round_brackets; raw_call] |};
          contract_of {| name := "g";
                         nodes := [other_case; raw_call] |};
          contract_of {| name := "h";
                         nodes := [other_words; raw_call] |}]).
Proof. reflexivity. Qed.

(** X3 on [marked]: the lookup of the call returns the annotated node. *)
Lemma get_previous_node_some_witness :
  let self := detector_of [contract_of marked] in
  get_previous_node marked raw_call self = Returns (Some annotation, self) /\
  self = self /\
  In annotation (nodes marked) /\
  py_eq annotation raw_call = false /\
  exists pre first post,
    nodes marked = (pre ++ annotation :: first :: post)%list /\
    py_eq first raw_call = true.
Proof.
  intros self. split; [reflexivity|].
  exact (@get_previous_node_some object_eq marked raw_call annotation
           self self eq_refl).
Defined.

(** X4 on [unmarked]: the call stands at index 1. *)
Lemma get_previous_node_positional_witness :
  let self := detector_of [contract_of unmarked] in
  distinct (nodes unmarked) = true /\
  nth_error (nodes unmarked) 1 = Some raw_call /\
  get_previous_node unmarked raw_call self
  = Returns (nth_error (nodes unmarked) 0, self).
Proof.
  intros self. do 2 (split; [reflexivity|]).
  exact (@get_previous_node_positional object_eq unmarked raw_call 1 self
           eq_refl eq_refl).
Defined.

Lemma distinct_in_marked contract :
  In contract [contract_of marked] ->
  forall function,
    In function (functions_declared contract) ->
    distinct (nodes function) = true.
Proof.
  intros [<-|[]] function [<-|[]]. reflexivity.
Defined.

(** X5 on [marked]. *)
Lemma detect_is_positional_on_distinct_nodes_witness :
  let self := detector_of [contract_of marked] in
  (forall contract,
      In contract (contracts_derived (compilation_unit self)) ->
      forall function,
        In function (functions_declared contract) ->
        distinct (nodes function) = true) /\
  _detect self =
  Returns
    (flat_map (fun contract =>
       flat_map (fun function =>
                   positional_findings function None (nodes function))
                (functions_declared contract))
       (contracts_derived (compilation_unit self)), self).
Proof.
  intros self. split; [exact distinct_in_marked|].
  exact (@detect_is_positional_on_distinct_nodes object_eq self
           distinct_in_marked).
Defined.

(** X6 on the plain call. *)
Lemma flagged_text_holds_call_and_parenthesis_witness :
  search low_level_call_pattern "x.call(data)" = true /\
  (contains ".call(" "x.call(data)" = true \/
   contains ".call{" "x.call(data)" = true) /\
  contains ")" "x.call(data)" = true.
Proof.
  split; [reflexivity|].
  exact (flagged_text_holds_call_and_parenthesis "x.call(data)" eq_refl).
Defined.

(** X7 on [alone] and [alone_then_plain]. *)
Lemma appended_nodes_keep_earlier_findings_witness :
  functions_declared (contract_of alone) = [alone] /\
  functions_declared (contract_of alone_then_plain) = [alone_then_plain] /\
  name alone_then_plain = name alone /\
  nodes alone_then_plain = (nodes alone ++ [plain])%list /\
  exists out extra,
    _detect (detector_of [contract_of alone])
    = Returns (out, detector_of [contract_of alone]) /\
    _detect (detector_of [contract_of alone_then_plain])
    = Returns ((out ++ extra)%list,
               detector_of [contract_of alone_then_plain]).
Proof.
  do 4 (split; [reflexivity|]).
  exact (@appended_nodes_keep_earlier_findings object_eq
           (contract_of alone) (contract_of alone_then_plain)
           alone alone_then_plain [plain]
           eq_refl eq_refl eq_refl eq_refl).
Defined.

(** Calls through [delegatecall] and [staticcall] do not hold [.call]. *)
Example other_low_level_calls_not_flagged :
  search low_level_call_pattern "addr.delegatecall(data)" = false /\
  search low_level_call_pattern "addr.staticcall(data)" = false.
Proof. split; reflexivity. Qed.

End MoreFacts.

(* ===================================================================== *)
(** * The pass on the store *)
(* ===================================================================== *)

Module StoreFacts.
Import PyStr PyStrFacts Re ReFacts Slither LowLevelCallDetector Findings.
Import DetectorFacts Store.
Local Open Scope list_scope.

(** ** The store *)

Lemma nth_error_prefix {A} (s t : list A) a x :
  nth_error s a = Some x -> nth_error (s ++ t) a = Some x.
Proof.
  intros E. rewrite nth_error_app1; [assumption|].
  apply nth_error_Some. now rewrite E.
Qed.

Lemma nth_error_last {A} (s : list A) x :
  nth_error (s ++ [x]) (List.length s) = Some x.
Proof. rewrite nth_error_app2 by lia. now rewrite Nat.sub_diag. Qed.

Lemma write_last (s : store) (acc items : list object) :
  write (List.length s) items (s ++ [acc]) = (s ++ [items])%list.
Proof.
  induction s as [|other s IH]; [reflexivity|].
  cbn [List.length app write]. now rewrite IH.
Qed.

(** Appending to the list allocated last leaves every other list alone. *)
Lemma append_last (s : store) (acc : list object) (x : object) :
  append (List.length s) x (s ++ [acc])
  = Done tt (s ++ [(acc ++ [x])%list])%list.
Proof.
  unfold append. now rewrite nth_error_last, write_last.
Qed.

Lemma load_prefix (s t : store) a items :
  nth_error s a = Some items -> load a (s ++ t) = Done items (s ++ t)%list.
Proof.
  intros E. unfold load. now rewrite (nth_error_prefix _ t _ E).
Qed.

(** ** Lists *)

Lemma skipn_nth {A} (l : list A) i x :
  nth_error l i = Some x -> skipn i l = x :: skipn (S i) l.
Proof.
  revert i; induction l as [|y l IH]; intros [|i] E; try discriminate.
  - now injection E as ->.
  - cbn [skipn]. now apply IH.
Qed.

Lemma skipn_past {A} (l : list A) i :
  nth_error l i = None -> skipn i l = [].
Proof. intros E. apply skipn_all2. now apply nth_error_None. Qed.

Lemma traverse_cons {A B} (f : A -> option B) x rest ys :
  traverse f (x :: rest) = Some ys ->
  exists y ys', f x = Some y /\ traverse f rest = Some ys' /\ ys = y :: ys'.
Proof.
  cbn [traverse]. destruct (f x) as [y|]; [|discriminate].
  destruct (traverse f rest) as [ys'|]; [|discriminate].
  intros [= <-]. now exists y, ys'.
Qed.

Lemma traverse_agree {A B} (f g : A -> option B) (l : list A) ys :
  (forall x y, In x l -> f x = Some y -> g x = Some y) ->
  traverse f l = Some ys -> traverse g l = Some ys.
Proof.
  revert ys; induction l as [|x l IH]; intros ys Hfg E; [exact E|].
  apply traverse_cons in E as (y & ys' & Ex & El & ->).
  cbn [traverse].
  rewrite (Hfg x y (or_introl eq_refl) Ex).
  rewrite (IH ys'); [reflexivity | | assumption].
  intros x' y' Hin. apply Hfg. now right.
Qed.

Lemma traverse_node_of (items : list object) (nodes : list Node) :
  traverse node_of items = Some nodes -> items = map ONode nodes.
Proof.
  revert nodes; induction items as [|x items IH]; intros nodes E.
  - now injection E as <-.
  - apply traverse_cons in E as (y & ys & Ex & El & ->).
    destruct x; try discriminate. injection Ex as ->.
    cbn [map]. now rewrite (IH ys El).
Qed.

(** ** The loop *)

(** A loop over a list of the model whose body appends to [results], the
    list allocated last, and leaves the rest of the store alone: with fuel
    for the items that remain it ends, and has appended for each of them in
    turn. *)
Lemma for_each_appends {A} (read : object -> option A)
    (g : A -> list Output) (body : object -> H unit)
    (s : store) (a : ref) (items : list object) :
  nth_error s a = Some items ->
  (forall x y acc,
      In x items -> read x = Some y ->
      body x (s ++ [acc])%list
      = Done tt (s ++ [(acc ++ map OOutput (g y))%list])%list) ->
  forall fuel position ys acc,
    position <= List.length items ->
    List.length items < fuel + position ->
    traverse read (skipn position items) = Some ys ->
    for_each fuel a position body (s ++ [acc])%list
    = Done tt (s ++ [(acc ++ map OOutput (flat_map g ys))%list])%list.
Proof.
  intros Ea Hbody.
  induction fuel as [|fuel IH]; intros position ys acc Hle Hfuel Hys.
  - lia.
  - cbn [for_each]. unfold bind at 1.
    rewrite (load_prefix s [acc] a Ea).
    destruct (nth_error items position) as [x|] eqn:Ex.
    + rewrite (skipn_nth _ _ Ex) in Hys.
      apply traverse_cons in Hys as (y & ys' & Ey & Hys' & ->).
      unfold bind.
      rewrite (Hbody x y acc (nth_error_In _ _ Ex) Ey).
      assert (position < List.length items)
        by (apply nth_error_Some; now rewrite Ex).
      rewrite (IH (S position) ys') by (assumption || lia).
      cbn [flat_map]. now rewrite map_app, List.app_assoc.
    + rewrite (skipn_past _ _ Ex) in Hys. injection Hys as <-.
      cbn [flat_map map]. now rewrite List.app_nil_r.
Qed.

Section AnyEquality.
Context `{DunderEq Node}.

(** ** The lookup *)

Lemma index_from_nodes i (nodes : list Node) (node : Node) :
  Store.index_from i (map ONode nodes) node
  = LowLevelCallDetector.index_from i nodes node.
Proof.
  revert i; induction nodes as [|item rest IH]; intros i; [reflexivity|].
  cbn [map Store.index_from LowLevelCallDetector.index_from equal_to].
  now rewrite IH.
Qed.

(** On a list of nodes the lookup on the store does what the lookup on
    the list does, and leaves the store as it is. *)
Lemma get_previous_node_on_store (st : store) function nodes node :
  nth_error st (function_nodes function) = Some (map ONode nodes) ->
  Store.get_previous_node function node st =
  match before_first_equal None nodes node with
  | Some previous => Done (option_map ONode previous) st
  | None => Failed (Exception (ValueError "list.index(x): x not in list"))
  end.
Proof.
  intros Ea.
  unfold Store.get_previous_node, Store.index, Store.getitem, Store.bind,
    load.
  rewrite Ea, index_from_nodes.
  destruct (first_equal_split nodes node)
    as [(pre & first & post & -> & Ha & He)|Ha].
  - rewrite (index_from_split 0 _ _ Ha He).
    rewrite (before_first_equal_split None _ _ Ha He).
    unfold Store.ret. cbn [Nat.add].
    destruct pre as [|item pre _] using rev_ind; [reflexivity|].
    rewrite rev_unit, length_app. cbn [List.length].
    replace (List.length pre + 1) with (S (List.length pre)) by lia.
    cbn [Nat.ltb Nat.leb]. rewrite Ea.
    replace (S (List.length pre) - 1) with (List.length pre) by lia.
    rewrite nth_error_map, <- List.app_assoc, nth_error_app2 by lia.
    now rewrite Nat.sub_diag.
  - rewrite (index_from_absent 0 Ha).
    now rewrite (before_first_equal_absent None Ha).
Qed.

(** ** The body of the loops *)

Lemma detect_node_on_store (s : store) function nodes node acc :
  nth_error s (function_nodes function) = Some (map ONode nodes) ->
  In node nodes ->
  Store.detect_node (List.length s) function (ONode node) (s ++ [acc])%list
  = Done tt
      (s ++ [(acc ++
              map OOutput
                  (report {| name := function_name function;
                             nodes := nodes |} node))%list])%list.
Proof.
  intros Ea Hin.
  destruct (member_split _ _ Hin) as (pre & first & post & En & Ha & He).
  unfold Store.detect_node, report, reported, flagged, suppressed.
  cbn [fst snd Slither.nodes Slither.name as_node].
  unfold Store.bind at 1, Store.ret at 1.
  destruct (NodeType_eqb (type node) EXPRESSION); cbn [andb map];
    [| unfold Store.ret; now rewrite List.app_nil_r].
  destruct (search low_level_call_pattern (str (expression node)));
    cbn [andb map]; [| unfold Store.ret; now rewrite List.app_nil_r].
  unfold Store.bind at 1.
  rewrite (get_previous_node_on_store (s ++ [acc]) function nodes node
             (nth_error_prefix _ _ _ Ea)).
  rewrite En, (before_first_equal_split None _ _ Ha He).
  cbn [option_map].
  destruct (rev pre) as [|last l]; cbn [option_map negb].
  - unfold Store.bind, Store.ret. now rewrite append_last.
  - cbn [as_node]. unfold Store.bind, Store.ret, has_marker.
    destruct (contains allowed_comment
                (get_source_code (source_mapping last))); cbn [negb map].
    + now rewrite List.app_nil_r.
    + now rewrite append_last.
Qed.

Lemma function_loop_on_store (s0 t : store) fuel function model acc :
  Forall (fun items => List.length items < fuel) s0 ->
  function_at s0 (OFunction function) = Some model ->
  for_each fuel (function_nodes function) 0
    (Store.detect_node (List.length (s0 ++ t)) function)
    ((s0 ++ t) ++ [acc])%list
  = Done tt
      ((s0 ++ t) ++ [(acc ++ map OOutput (function_findings model))%list])%list.
Proof.
  intros Hfuel Hm. cbn [function_at] in Hm.
  destruct (nth_error s0 (function_nodes function)) as [items|] eqn:Ea;
    [|discriminate].
  destruct (traverse node_of items) as [nodes|] eqn:Et; [|discriminate].
  injection Hm as <-.
  pose proof (traverse_node_of _ Et) as Ei.
  assert (Hlen : List.length items < fuel).
  { rewrite Forall_forall in Hfuel. apply Hfuel.
    now apply nth_error_In with (n := function_nodes function). }
  apply for_each_appends
    with (read := node_of)
         (g := report {| name := function_name function; nodes := nodes |})
         (items := items).
  - now apply nth_error_prefix.
  - intros x node acc' Hx Ex. destruct x; try discriminate.
    injection Ex as ->. apply detect_node_on_store.
    + apply nth_error_prefix. now rewrite Ea, Ei.
    + rewrite Ei in Hx. apply in_map_iff in Hx as (node' & [= ->] & Hin).
      exact Hin.
  - lia.
  - lia.
  - exact Et.
Qed.

Lemma contract_loop_on_store (s0 t : store) fuel contract model acc :
  Forall (fun items => List.length items < fuel) s0 ->
  contract_at s0 (OContract contract) = Some model ->
  for_each fuel (contract_functions_declared contract) 0
    (fun item =>
       Store.bind (as_function item)
         (fun function =>
            for_each fuel (function_nodes function) 0
              (Store.detect_node (List.length (s0 ++ t)) function)))
    ((s0 ++ t) ++ [acc])%list
  = Done tt
      ((s0 ++ t) ++ [(acc ++ map OOutput (contract_findings model))%list])%list.
Proof.
  intros Hfuel Hm. cbn [contract_at] in Hm.
  destruct (nth_error s0 (contract_functions_declared contract))
    as [items|] eqn:Ea; [|discriminate].
  destruct (traverse (function_at s0) items) as [declared|] eqn:Et;
    [|discriminate].
  injection Hm as <-.
  assert (Hlen : List.length items < fuel).
  { rewrite Forall_forall in Hfuel. apply Hfuel.
    now apply nth_error_In
      with (n := contract_functions_declared contract). }
  unfold contract_findings. cbn [functions_declared].
  apply for_each_appends
    with (read := function_at s0) (g := function_findings) (items := items).
  - now apply nth_error_prefix.
  - intros x function acc' _ Ex. destruct x; try discriminate.
    cbn [as_function]. unfold Store.bind, Store.ret.
    now apply function_loop_on_store.
  - lia.
  - lia.
  - exact Et.
Qed.

(** ** The pass *)

(** From a store that holds a model, whatever else it holds, the pass ends,
    returns the reference to a new list holding the findings of the model,
    and leaves every list that was there as it was. *)
Lemma detect_on_store (s0 t : store) fuel self model :
  Forall (fun items => List.length items < fuel) s0 ->
  model_at s0 self = Some model ->
  Store._detect fuel self (s0 ++ t)%list
  = Done (List.length (s0 ++ t))
         ((s0 ++ t)
          ++ [map OOutput (findings (compilation_unit model))])%list.
Proof.
  intros Hfuel Hm. unfold model_at in Hm.
  destruct (nth_error s0 (unit_contracts_derived
                            (detector_compilation_unit self)))
    as [items|] eqn:Ea; [|discriminate].
  destruct (traverse (contract_at s0) items) as [derived|] eqn:Et;
    [|discriminate].
  injection Hm as <-.
  assert (Hlen : List.length items < fuel).
  { rewrite Forall_forall in Hfuel. apply Hfuel.
    now apply nth_error_In
      with (n := unit_contracts_derived (detector_compilation_unit self)). }
  unfold Store._detect, Store.bind at 1, new_list.
  unfold Store.bind at 1.
  rewrite for_each_appends
    with (read := contract_at s0) (g := contract_findings)
         (items := items) (ys := derived).
  - reflexivity.
  - now apply nth_error_prefix.
  - intros x contract acc _ Ex. destruct x; try discriminate.
    cbn [as_contract]. unfold Store.bind at 1, Store.ret.
    now apply contract_loop_on_store.
  - lia.
  - lia.
  - exact Et.
Qed.

(** ** The model in a larger store *)

Lemma function_at_prefix (s t : store) x model :
  function_at s x = Some model -> function_at (s ++ t) x = Some model.
Proof.
  destruct x; try discriminate. cbn [function_at].
  destruct (nth_error s (function_nodes function)) as [items|] eqn:Ea;
    [|discriminate].
  now rewrite (nth_error_prefix _ t _ Ea).
Qed.

Lemma contract_at_prefix (s t : store) x model :
  contract_at s x = Some model -> contract_at (s ++ t) x = Some model.
Proof.
  destruct x; try discriminate. cbn [contract_at].
  destruct (nth_error s (contract_functions_declared contract))
    as [items|] eqn:Ea; [|discriminate].
  rewrite (nth_error_prefix _ t _ Ea).
  destruct (traverse (function_at s) items) as [declared|] eqn:Et;
    [|discriminate].
  rewrite (traverse_agree (function_at s) (function_at (s ++ t)) items
             (fun x y _ => @function_at_prefix s t x y) Et).
  auto.
Qed.

Lemma model_at_prefix (s t : store) self model :
  model_at s self = Some model -> model_at (s ++ t) self = Some model.
Proof.
  unfold model_at.
  destruct (nth_error s (unit_contracts_derived
                           (detector_compilation_unit self)))
    as [items|] eqn:Ea; [|discriminate].
  rewrite (nth_error_prefix _ t _ Ea).
  destruct (traverse (contract_at s) items) as [derived|] eqn:Et;
    [|discriminate].
  rewrite (traverse_agree (contract_at s) (contract_at (s ++ t)) items
             (fun x y _ => @contract_at_prefix s t x y) Et).
  auto.
Qed.

(** C9.  The pass is deterministic and changes nothing of the program
    model.  From a store that holds a model, two passes run one after the
    other each return a list of their own, the two lists hold the same
    findings in the same order, namely those [_detect] computes on the
    model, and every list object that was in the store before is there
    afterwards with the content it had: the store still holds the same
    model. *)
Theorem two_passes_agree_and_keep_the_model (s : store) fuel self model :
  model_at s self = Some model ->
  Forall (fun items => List.length items < fuel) s ->
  exists out final,
    LowLevelCallDetector._detect model = Returns (out, model) /\
    Store.two_passes fuel self s
    = Done (map OOutput out, map OOutput out) final /\
    (forall a items,
        nth_error s a = Some items -> nth_error final a = Some items) /\
    model_at final self = Some model.
Proof.
  intros Hm Hfuel.
  set (out := findings (compilation_unit model)).
  exists out, ((s ++ [map OOutput out]) ++ [map OOutput out])%list.
  split; [apply detect_spec|]. split; [|split].
  - unfold Store.two_passes.
    unfold Store.bind at 1.
    rewrite <- (List.app_nil_r s) at 1.
    rewrite (@detect_on_store s [] fuel self model Hfuel Hm).
    rewrite List.app_nil_r. fold out.
    unfold Store.bind at 1.
    rewrite (@detect_on_store s [map OOutput out] fuel self model
               Hfuel Hm).
    fold out.
    unfold Store.bind, load, Store.ret.
    rewrite (nth_error_prefix _ [map OOutput out] _
               (nth_error_last s (map OOutput out))).
    now rewrite nth_error_last.
  - intros a items Ea. now do 2 apply nth_error_prefix.
  - now do 2 apply model_at_prefix.
Qed.

End AnyEquality.

(** ** The pass on the sample store *)

#[local] Existing Instance object_eq.

(** C9 on the sample store: three lists before the passes, five after,
    the first three unchanged. *)
Lemma two_passes_agree_and_keep_the_model_witness :
  model_at sample_store sample_detector
  = Some (detector_of
            [{| contract_name := "C";
                functions :=
                  [{| name := "g";
                      nodes := [Samples.annotation; Samples.raw_call;
                                Samples.node 3 EXPRESSION
                                  (Some "y.call(data)") "y.call(data);"] |}];
                functions_declared :=
                  [{| name := "g";
                      nodes := [Samples.annotation; Samples.raw_call;
                                Samples.node 3 EXPRESSION
                                  (Some "y.call(data)") "y.call(data);"] |}]
             |}]) /\
  Forall (fun items => List.length items < 4) sample_store /\
  exists out final,
    LowLevelCallDetector._detect
      (detector_of
         [{| contract_name := "C";
             functions :=
               [{| name := "g";
                   nodes := [Samples.annotation; Samples.raw_call;
                             Samples.node 3 EXPRESSION
                               (Some "y.call(data)") "y.call(data);"] |}];
             functions_declared :=
               [{| name := "g";
                   nodes := [Samples.annotation; Samples.raw_call;
                             Samples.node 3 EXPRESSION
                               (Some "y.call(data)") "y.call(data);"] |}]
          |}])
    = Returns
        (out,
         detector_of
           [{| contract_name := "C";
               functions :=
                 [{| name := "g";
                     nodes := [Samples.annotation; Samples.raw_call;
                               Samples.node 3 EXPRESSION
                                 (Some "y.call(data)") "y.call(data);"] |}];
               functions_declared :=
                 [{| name := "g";
                     nodes := [Samples.annotation; Samples.raw_call;
                               Samples.node 3 EXPRESSION
                                 (Some "y.call(data)") "y.call(data);"] |}]
            |}]) /\
    Store.two_passes 4 sample_detector sample_store
    = Done (map OOutput out, map OOutput out) final /\
    (forall a items,
        nth_error sample_store a = Some items ->
        nth_error final a = Some items) /\
    model_at final sample_detector
    = Some (detector_of
              [{| contract_name := "C";
                  functions :=
                    [{| name := "g";
                        nodes := [Samples.annotation; Samples.raw_call;
                                  Samples.node 3 EXPRESSION
                                    (Some "y.call(data)") "y.call(data);"] |}];
                  functions_declared :=
                    [{| name := "g";
                        nodes := [Samples.annotation; Samples.raw_call;
                                  Samples.node 3 EXPRESSION
                                    (Some "y.call(data)") "y.call(data);"] |}]
               |}]).
Proof.
  assert (Hfuel : Forall (fun items => List.length items < 4) sample_store)
    by (repeat constructor).
  split; [reflexivity|]. split; [exact Hfuel|].
  exact (@two_passes_agree_and_keep_the_model object_eq
           sample_store 4 sample_detector _ eq_refl Hfuel).
Defined.

(** Too little fuel does not give a wrong answer: the pass fails. *)
Example two_passes_out_of_fuel :
  Store.two_passes 3 sample_detector sample_store = Failed OutOfFuel.
Proof. reflexivity. Qed.

(** The model is left alone because [results] is a list of its own.  An
    [append] through a reference to a list of the model changes the
    model. *)
Example append_to_a_list_of_the_model :
  match append 2 (ONode Samples.plain) sample_store with
  | Done _ after =>
      model_at after sample_detector
      <> model_at sample_store sample_detector
  | Failed _ => False
  end.
Proof. cbv beta. discriminate. Qed.

End StoreFacts.
